(** * PlotData.py: the table reader and the expression resolver

    A shallow embedding of [readfile] and [gety] of [src/PlotData.py],
    of the lines that build the Symbol Table (167-178), of the one
    statement that takes the row count ([nrows = len(cols[0])], line 165)
    and of lines 182-218 (the listing of [--contents] and the plots).

    Conventions.
    - A Python [str] is a list of characters; a character is a code point
      below 256 ([ascii]).
    - The input stream is a seekable text stream after newline
      translation: its whole contents and the current position.  Its
      operations always return; the reader is given a second time, in
      [Fallible], for any stream whose [tell], [readline] and [seek] may
      raise, and the two agree on streams of text.
    - Text follows Python 3's [str].  Python 2's byte strings differ in
      the reader only on a few characters ([isspace] is false there of
      FS..US, NEL and NBSP) and on underscores in numbers, which [float]
      refuses before 3.6; no statement below depends on either.
    - What the source calls of Python ([str.strip], [str.split],
      [str.startswith], [zip], [shlex.split], [float], [exec]) is written
      out next to its caller.  [float] and the numbers it yields are a
      parameter of the reader, [exec] is a parameter of [gety]; a decimal
      [float] and an [exec] for a fragment of Python are given for the
      scenarios and for the statements that need them.
    - [gety] depends on the interpreter: the source tests
      [sys.version_info], and [exec] means different things in Python 2
      (a statement that acts on the function's variables), in Python 3
      (a function that writes to the mapping it is given, never to the
      function's variables) and from 3.13 on (where that mapping is a
      copy).  The interpreter is therefore an argument of the model.
    - A call of Python has three outcomes here: a value, an exception, or
      a behaviour the model does not cover ([Beyond], [Unmodelled]); the
      last is never read as either of the first two. *)

From Stdlib Require Import String Ascii List Bool Arith ZArith QArith Lia.
From Stdlib Require Import DecimalString.
From Stdlib Require DecimalNat DecimalFacts Finite.
Import ListNotations.
Close Scope Q_scope.

Set Implicit Arguments.

(** ** Text *)

Definition text := list ascii.

Definition T (s : string) : text := list_ascii_of_string s.

Definition nl : ascii := ascii_of_nat 10.

(** [str.isspace] on one character: TAB..CR, FS..US, SPACE, NEL, NBSP. *)
Definition isspace (c : ascii) : bool :=
  let n := nat_of_ascii c in
  ((9 <=? n) && (n <=? 13)) || ((28 <=? n) && (n <=? 32))
  || (n =? 133) || (n =? 160).

Fixpoint lstrip (s : text) : text :=
  match s with
  | c :: r => if isspace c then lstrip r else s
  | [] => []
  end.

Definition rstrip (s : text) : text := rev (lstrip (rev s)).

(** [s.strip()] *)
Definition strip (s : text) : text := rstrip (lstrip s).

(** [s.split()]: maximal runs of non-whitespace characters. *)
Fixpoint split_from (s word : text) : list text :=
  match s with
  | [] => match word with [] => [] | _ => [word] end
  | c :: r =>
      if isspace c
      then match word with
           | [] => split_from r []
           | _ => word :: split_from r []
           end
      else split_from r (word ++ [c])
  end.

Definition split (s : text) : list text := split_from s [].

Definition text_eqb (a b : text) : bool :=
  if list_eq_dec ascii_dec a b then true else false.

(** [s.startswith(p)] *)
Fixpoint startswith (s p : text) : bool :=
  match p, s with
  | [], _ => true
  | _ :: _, [] => false
  | a :: p', b :: s' => Ascii.eqb a b && startswith s' p'
  end.

(** ** Exceptions and results *)

(** [SyntaxError] carries the source it was found in, which Python keeps
    in the exception's [text] (on CPython 3.11 with a newline added);
    [UnsupportedOperation] is the class of [io], an [OSError] and a
    [ValueError]. *)
Inductive exn : Type :=
| KeyError (key : text)
| NameError (name : text)
| UnboundLocalError (name : text)
| AttributeError (attr : text)
| SyntaxError (source : text)
| TypeError
| ValueError (msg : string)
| IndexError (msg : string)
| UnsupportedOperation (msg : string)
| UnicodeDecodeError (codec : string).

(** The class name and the arguments an exception carries. *)
Definition exn_class (e : exn) : string :=
  match e with
  | KeyError _ => "KeyError"
  | NameError _ => "NameError"
  | UnboundLocalError _ => "UnboundLocalError"
  | AttributeError _ => "AttributeError"
  | SyntaxError _ => "SyntaxError"
  | TypeError => "TypeError"
  | ValueError _ => "ValueError"
  | IndexError _ => "IndexError"
  | UnsupportedOperation _ => "UnsupportedOperation"
  | UnicodeDecodeError _ => "UnicodeDecodeError"
  end.

Definition exn_args (e : exn) : list text :=
  match e with
  | KeyError k => [k]
  | NameError n => [n]
  | UnboundLocalError n => [n]
  | AttributeError a => [a]
  | SyntaxError source => [source]
  | TypeError => []
  | ValueError m => [T m]
  | IndexError m => [T m]
  | UnsupportedOperation m => [T m]
  | UnicodeDecodeError c => [T c]
  end.

Inductive result (A : Type) : Type :=
| Ok (a : A)
| Raise (e : exn).

Arguments Ok {A} a.
Arguments Raise {A} e.

(** ** [shlex.split(s)]: POSIX mode, [whitespace_split], no commenters *)

Module Shlex.

(** [self.state]: [' '], ['a'], an open quote, or a pending escape. *)
Inductive state : Type :=
| Blank
| Word
| Quote (q : ascii)
| Escape (e : ascii).

Definition squote : ascii := ascii_of_nat 39.
Definition dquote : ascii := ascii_of_nat 34.
Definition backslash : ascii := ascii_of_nat 92.

(** [self.whitespace = ' \t\r\n'] *)
Definition whitespace (c : ascii) : bool :=
  let n := nat_of_ascii c in
  (n =? 32) || (n =? 9) || (n =? 13) || (n =? 10).

(** [self.quotes], [self.escape], [self.escapedquotes] *)
Definition quotes (c : ascii) : bool :=
  Ascii.eqb c squote || Ascii.eqb c dquote.
Definition escape (c : ascii) : bool := Ascii.eqb c backslash.
Definition escapedquotes (c : ascii) : bool := Ascii.eqb c dquote.

Definition in_quotes (s : state) : bool :=
  match s with Quote _ => true | _ => false end.

Definition state_char (s : state) : option ascii :=
  match s with Quote q => Some q | Escape e => Some e | _ => None end.

Definition differs (c : ascii) (s : state) : bool :=
  match state_char s with
  | Some d => negb (Ascii.eqb c d)
  | None => true
  end.

(** [if self.token or (self.posix and quoted): break] *)
Definition emit (token : text) (quoted : bool) (acc : list text)
  : list text :=
  match token with
  | [] => if quoted then acc ++ [token] else acc
  | _ => acc ++ [token]
  end.

(** [read_token] run over the whole input, a token being pushed on [acc]
    at each [break]; [token], [quoted] and [escapedstate] are the locals
    of [read_token], reset after each token. *)
Fixpoint lex (input : text) (st escapedstate : state) (token : text)
         (quoted : bool) (acc : list text) : result (list text) :=
  match input with
  | [] =>
      match st with
      | Blank => Ok acc
      | Word => Ok (emit token quoted acc)
      | Quote _ => Raise (ValueError "No closing quotation")
      | Escape _ => Raise (ValueError "No escaped character")
      end
  | nextchar :: rest =>
      match st with
      | Blank =>
          if whitespace nextchar then lex rest Blank Blank [] false acc
          else if escape nextchar
               then lex rest (Escape nextchar) Word token quoted acc
          else if quotes nextchar
               then lex rest (Quote nextchar) escapedstate token quoted acc
          else lex rest Word escapedstate [nextchar] quoted acc
      | Quote q =>
          if Ascii.eqb nextchar q
          then lex rest Word escapedstate token true acc
          else if escape nextchar && escapedquotes q
               then lex rest (Escape nextchar) (Quote q) token true acc
          else lex rest (Quote q) escapedstate (token ++ [nextchar]) true acc
      | Escape e =>
          let token' :=
            if in_quotes escapedstate && negb (Ascii.eqb nextchar e)
               && differs nextchar escapedstate
            then token ++ [e] else token in
          lex rest escapedstate escapedstate (token' ++ [nextchar])
              quoted acc
      | Word =>
          if whitespace nextchar
          then lex rest Blank Blank [] false (emit token quoted acc)
          else if quotes nextchar
               then lex rest (Quote nextchar) escapedstate token quoted acc
          else if escape nextchar
               then lex rest (Escape nextchar) Word token quoted acc
          else lex rest Word escapedstate (token ++ [nextchar]) quoted acc
      end
  end.

Definition split (s : text) : result (list text) :=
  lex s Blank Blank [] false [].

End Shlex.

(** ** The input stream *)

Record stream : Type := { contents : text; pos : nat }.

(** [fp.tell()] *)
Definition tell (fp : stream) : nat := pos fp.

(** [fp.seek(n)] *)
Definition seek (fp : stream) (n : nat) : stream :=
  {| contents := contents fp; pos := n |}.

(** The unread part of the stream. *)
Definition unread (fp : stream) : text := skipn (pos fp) (contents fp).

(** The first line of [s], its newline included. *)
Fixpoint first_line (s : text) : text :=
  match s with
  | [] => []
  | c :: r => if Ascii.eqb c nl then [c] else c :: first_line r
  end.

(** [fp.readline()]: the line read ([[]] at end of file) and the stream
    after it. *)
Definition readline (fp : stream) : text * stream :=
  let line := first_line (unread fp) in
  (line, {| contents := contents fp; pos := pos fp + length line |}).

(** ** [readfile] *)

(** [[f(s) for s in l]] for an [f] that may raise. *)
Fixpoint map_try {A B : Type} (f : A -> option B) (l : list A)
  : option (list B) :=
  match l with
  | [] => Some []
  | a :: r =>
      match f a with
      | None => None
      | Some b =>
          match map_try f r with
          | None => None
          | Some bs => Some (b :: bs)
          end
      end
  end.

(** [zip( *rows )], as lists: one tuple per position present in every row.
    [first] is the first row and bounds the number of tuples. *)
Fixpoint zip_star {A : Type} (first : list A) (rows : list (list A))
  : list (list A) :=
  match first with
  | [] => []
  | _ :: first' =>
      match map_try (@hd_error A) rows with
      | None => []
      | Some heads => heads :: zip_star first' (map (@tl A) rows)
      end
  end.

(** [list(map(list, zip( *rows )))] under [if rows:] *)
Definition columns_of {A : Type} (rows : list (list A)) : list (list A) :=
  match rows with
  | [] => []
  | first :: _ => zip_star first rows
  end.

(** Lines 99-103: the labels, from the comments. *)
Definition labels_of (comments : list text) : result (list text) :=
  match comments with
  | [] => Ok []
  | _ =>
      let s := last comments [] in
      let s := if startswith s (T "#") then strip (tl s) else s in
      let s := if startswith s (T "labels") then strip (tl s) else s in
      Shlex.split s
  end.

Section Reader.

(** The numbers of the table and Python's [float(s)], [None] standing
    for [ValueError]. *)
Variable F : Type.
Variable float : text -> option F.

(** Line 81: [[ float(s) for s in line.split() ]] *)
Definition parse_row (line : text) : option (list F) :=
  map_try float (split line).

(** What the [while] loop leaves behind. *)
Record scan : Type :=
  { comments : list text; rows : list (list F); after : stream }.

(** The [while line:] loop of lines 75-92, entered with [line] just read
    at position [npos]; each iteration spends one unit of [fuel]. *)
Fixpoint read_loop (fuel : nat) (cmts : list text) (rws : list (list F))
         (npos : nat) (line : text) (fp : stream) : option scan :=
  match fuel with
  | 0 => None
  | S fuel' =>
      match line with
      | [] => Some {| comments := cmts; rows := rws; after := fp |}
      | _ =>
          let line := strip line in
          match line with
          | [] => Some {| comments := cmts; rows := rws; after := fp |}
          | _ =>
              match parse_row line with
              | Some r =>
                  let npos := tell fp in
                  let (line', fp') := readline fp in
                  read_loop fuel' cmts (rws ++ [r]) npos line' fp'
              | None =>
                  match rws with
                  | [] =>
                      let npos := tell fp in
                      let (line', fp') := readline fp in
                      read_loop fuel' (cmts ++ [line]) rws npos line' fp'
                  | _ =>
                      Some {| comments := cmts; rows := rws;
                              after := seek fp npos |}
                  end
              end
          end
      end
  end.

(** Lines 66-92.  One iteration per line read, so the number of unread
    characters, plus one for the empty read at end of file, is fuel
    enough ([read_lines_total]). *)
Definition read_lines (fp : stream) : option scan :=
  let npos := tell fp in
  let (line, fp') := readline fp in
  read_loop (S (length (unread fp))) [] [] npos line fp'.

(** [readfile(fp)]: [(cols, comments, labels)], or the exception raised,
    and the stream as it is left. *)
Definition readfile (fp : stream)
  : option (result (list (list F) * list text * list text) * stream) :=
  match read_lines fp with
  | None => None
  | Some sc =>
      let cols := columns_of (rows sc) in
      match labels_of (comments sc) with
      | Raise e => Some (Raise e, after sc)
      | Ok labels => Some (Ok (cols, comments sc, labels), after sc)
      end
  end.

End Reader.

(** ** [readfile] on a stream whose operations may raise

    [fp.tell()] (lines 71 and 90), [fp.readline()] (lines 72 and 91) and
    [fp.seek(npos)] (line 87, in the handler) stand outside the [try] of
    lines 80-82: what they raise leaves [readfile].  A stream is here any
    state with three operations that return or raise, such as a pipe,
    whose [tell] raises, or a file holding bytes that do not decode, whose
    [readline] raises at some point.  The streams of text above are the
    instance whose operations always return. *)

Module Fallible.

Section Reader.

Variable F : Type.
Variable float : text -> option F.

Variable Fp : Type.
Variable tell : Fp -> result nat.
Variable readline : Fp -> result (text * Fp).
Variable seek : Fp -> nat -> result Fp.

(** The [while line:] loop of lines 75-92: the comments, the rows and the
    stream it leaves, or the exception that ended it. *)
Fixpoint read_loop (fuel : nat) (cmts : list text) (rws : list (list F))
         (npos : nat) (line : text) (fp : Fp)
  : option (result (list text * list (list F) * Fp)) :=
  match fuel with
  | 0 => None
  | S fuel' =>
      match line with
      | [] => Some (Ok (cmts, rws, fp))
      | _ =>
          let line := strip line in
          match line with
          | [] => Some (Ok (cmts, rws, fp))
          | _ =>
              match parse_row float line with
              | Some r =>
                  match tell fp with
                  | Raise e => Some (Raise e)
                  | Ok npos =>
                      match readline fp with
                      | Raise e => Some (Raise e)
                      | Ok (line', fp') =>
                          read_loop fuel' cmts (rws ++ [r]) npos line' fp'
                      end
                  end
              | None =>
                  match rws with
                  | [] =>
                      match tell fp with
                      | Raise e => Some (Raise e)
                      | Ok npos =>
                          match readline fp with
                          | Raise e => Some (Raise e)
                          | Ok (line', fp') =>
                              read_loop fuel' (cmts ++ [line]) rws npos
                                        line' fp'
                          end
                      end
                  | _ =>
                      match seek fp npos with
                      | Raise e => Some (Raise e)
                      | Ok fp' => Some (Ok (cmts, rws, fp'))
                      end
                  end
              end
          end
      end
  end.

(** Lines 66-92. *)
Definition read_lines (fuel : nat) (fp : Fp)
  : option (result (list text * list (list F) * Fp)) :=
  match tell fp with
  | Raise e => Some (Raise e)
  | Ok npos =>
      match readline fp with
      | Raise e => Some (Raise e)
      | Ok (line, fp') => read_loop fuel [] [] npos line fp'
      end
  end.

(** [readfile(fp)]: [(cols, comments, labels)] and the stream as it is
    left, or the exception raised. *)
Definition readfile (fuel : nat) (fp : Fp)
  : option (result (list (list F) * list text * list text * Fp)) :=
  match read_lines fuel fp with
  | None => None
  | Some (Raise e) => Some (Raise e)
  | Some (Ok (cmts, rws, fp')) =>
      match labels_of cmts with
      | Raise e => Some (Raise e)
      | Ok labels => Some (Ok (columns_of rws, cmts, labels, fp'))
      end
  end.

End Reader.

End Fallible.

(** The operations of a stream of text: they always return. *)
Definition text_tell (fp : stream) : result nat := Ok (tell fp).
Definition text_readline (fp : stream) : result (text * stream) :=
  Ok (readline fp).
Definition text_seek (fp : stream) (n : nat) : result stream :=
  Ok (seek fp n).

(** A pipe: [tell] raises, as [io.TextIOWrapper] does on a stream that is
    not seekable. *)
Definition pipe_tell (fp : stream) : result nat :=
  Raise (UnsupportedOperation "underlying stream is not seekable").

(** ** A decimal instance of [float]

    The grammar [float(s)] accepts for a token without surrounding
    whitespace: an optional sign, then [inf], [infinity] or [nan] in any
    case, or digits with an optional point and exponent, single underscores
    allowed between digits.  The value kept is the decimal written; rounding
    to binary64 is not modelled. *)

Inductive pyfloat : Type :=
| Finite (q : Q)
| Infinite (negative : bool)
| NaN.

Definition is_digit (c : ascii) : bool :=
  let n := nat_of_ascii c in (48 <=? n) && (n <=? 57).

Definition digit_val (c : ascii) : Z := Z.of_nat (nat_of_ascii c - 48).

Definition underscore : ascii := ascii_of_nat 95.

(** The rest of a digit part, after a digit: the value so far, the number
    of digits read, and what follows. *)
Fixpoint more_digits (s : text) (acc : Z) (n : nat) : Z * nat * text :=
  match s with
  | c :: r =>
      if is_digit c then more_digits r (10 * acc + digit_val c)%Z (S n)
      else if Ascii.eqb c underscore
           then match r with
                | d :: r' =>
                    if is_digit d
                    then more_digits r' (10 * acc + digit_val d)%Z (S n)
                    else (acc, n, s)
                | [] => (acc, n, s)
                end
      else (acc, n, s)
  | [] => (acc, n, [])
  end.

Definition digitpart (s : text) : option (Z * nat * text) :=
  match s with
  | c :: r => if is_digit c then Some (more_digits r (digit_val c) 1) else None
  | [] => None
  end.

Definition is_point (c : ascii) : bool := Ascii.eqb c (ascii_of_nat 46).

(** [number]: the digits as one integer, and how many follow the point. *)
Definition number (s : text) : option (Z * nat * text) :=
  match digitpart s with
  | Some (ip, _, rest) =>
      match rest with
      | c :: rest' =>
          if is_point c
          then match digitpart rest' with
               | Some (fp, n, rest'') =>
                   Some ((ip * 10 ^ Z.of_nat n + fp)%Z, n, rest'')
               | None => Some (ip, 0, rest')
               end
          else Some (ip, 0, rest)
      | [] => Some (ip, 0, [])
      end
  | None =>
      match s with
      | c :: rest' => if is_point c then digitpart rest' else None
      | [] => None
      end
  end.

Definition is_plus (c : ascii) : bool := Ascii.eqb c (ascii_of_nat 43).
Definition is_minus (c : ascii) : bool := Ascii.eqb c (ascii_of_nat 45).

(** An optional sign: [true] for minus. *)
Definition sign (s : text) : bool * text :=
  match s with
  | c :: r => if is_minus c then (true, r)
              else if is_plus c then (false, r) else (false, s)
  | [] => (false, [])
  end.

(** [exponent], which must end the text. *)
Definition exponent (s : text) : option Z :=
  match s with
  | [] => Some 0%Z
  | c :: r =>
      if Ascii.eqb c (ascii_of_nat 101) || Ascii.eqb c (ascii_of_nat 69)
      then let (neg, r') := sign r in
           match digitpart r' with
           | Some (e, _, []) => Some (if neg then (- e)%Z else e)
           | _ => None
           end
      else None
  end.

Definition lower (c : ascii) : ascii :=
  let n := nat_of_ascii c in
  if (65 <=? n) && (n <=? 90) then ascii_of_nat (n + 32) else c.

(** [m * 10^e] in lowest terms. *)
Definition scale10 (m e : Z) : Q :=
  Qred (if (0 <=? e)%Z then Qmake (m * 10 ^ e) 1
        else Qmake m (Z.to_pos (10 ^ (- e)))).

Definition float_of_text (s : text) : option pyfloat :=
  let (neg, body) := sign s in
  let word := map lower body in
  if text_eqb word (T "inf") || text_eqb word (T "infinity")
  then Some (Infinite neg)
  else if text_eqb word (T "nan") then Some NaN
  else match number body with
       | None => None
       | Some (m, n, rest) =>
           match exponent rest with
           | None => None
           | Some e =>
               Some (Finite (scale10 (if neg then (- m)%Z else m)
                                     (e - Z.of_nat n)))
           end
       end.

(** ** Line 165: [nrows = len(cols[0])] *)

Definition nrows {A : Type} (cols : list (list A)) : result nat :=
  match cols with
  | [] => Raise (IndexError "list index out of range")
  | c :: _ => Ok (length c)
  end.

(** ** Values and namespaces of the resolver *)

(** The arithmetic of the table's numbers, as far as the modelled
    expressions use it; [lit m n] is the literal whose digits read [m] and
    of which [n] follow the point. *)
Class Number (N : Type) : Type :=
  { add : N -> N -> N;
    sub : N -> N -> N;
    mul : N -> N -> N;
    neg : N -> N;
    lit : Z -> nat -> N }.

#[export] Instance Number_Q : Number Q :=
  { add := fun a b => Qred (Qplus a b);
    sub := fun a b => Qred (Qminus a b);
    mul := fun a b => Qred (Qmult a b);
    neg := fun a => Qred (Qopp a);
    lit := fun m n => scale10 m (- Z.of_nat n) }.

(** A Python [dict] keeps its keys in insertion order: an association
    list, read at the first entry of a key. *)
Definition dict (V : Type) := list (text * V).

Fixpoint dict_get {V : Type} (d : dict V) (k : text) : option V :=
  match d with
  | [] => None
  | (k', v) :: r => if text_eqb k' k then Some v else dict_get r k
  end.

(** [d[k] = v]: in place when [k] is there, at the end otherwise. *)
Fixpoint dict_set {V : Type} (d : dict V) (k : text) (v : V) : dict V :=
  match d with
  | [] => [(k, v)]
  | (k', v') :: r =>
      if text_eqb k' k then (k', v) :: r else (k', v') :: dict_set r k v
  end.

(** [del d[k]], the [KeyError] of a missing key being ignored. *)
Fixpoint dict_del {V : Type} (d : dict V) (k : text) : dict V :=
  match d with
  | [] => []
  | (k', v') :: r =>
      if text_eqb k' k then dict_del r k else (k', v') :: dict_del r k
  end.

Section Values.

Variable N : Type.

(** The Symbol Table: name to Column (a plain list of numbers). *)
Definition table := dict (list N).

Inductive value : Type :=
| VNum (x : N)
| VList (xs : list N)            (* a plain list, as the table holds *)
| VArray (xs : list N)           (* [numpy.ndarray] with one axis *)
| VStr (s : text)
| VDict (d : table)
| VModule (name : text)          (* a module object, by its name *)
| VNpArray                       (* the function [numpy.array] *)
| VOpaque.                       (* an object the model says nothing of *)

Definition ns := dict value.

End Values.

Arguments VNum {N} x.
Arguments VList {N} xs.
Arguments VArray {N} xs.
Arguments VStr {N} s.
Arguments VDict {N} d.
Arguments VModule {N} name.
Arguments VNpArray {N}.
Arguments VOpaque {N}.

(** What [exec] does to the two mappings it is given. *)
Inductive exec_result (N : Type) : Type :=
| Done (g l : ns N)                  (* ran to completion *)
| Raised (e : exn) (g l : ns N)      (* raised [e] *)
| Beyond.                            (* not in the modelled fragment *)

Arguments Done {N} g l.
Arguments Raised {N} e g l.
Arguments Beyond {N}.

(** What a call of [gety] does. *)
Inductive outcome (N : Type) : Type :=
| Returns (v : value N)
| Raises (e : exn)
| Unmodelled.

Arguments Returns {N} v.
Arguments Raises {N} e.
Arguments Unmodelled {N}.

(** ** [gety] *)

(** [sys.version_info], as far as the source and the semantics of [exec]
    depend on it. *)
Record version : Type := { major : nat; minor : nat }.

(** Line 123: [sys.version_info < (3,6)] *)
Definition before_3_6 (v : version) : bool :=
  (major v <? 3) || ((major v =? 3) && (minor v <? 6)).

(** Python 2: [exec] is a statement; run without [in] it acts on the
    function's own variables, which it writes back when done. *)
Definition exec_statement (v : version) : bool := major v <? 3.

(** Python 3.13 on: [locals()] in a function, and the default mapping of
    [exec], are a fresh copy of the variables at each call.  Before, both
    are the one dictionary of the frame, refreshed from the variables. *)
Definition snapshot_locals (v : version) : bool :=
  (3 <? major v) || ((major v =? 3) && (13 <=? minor v)).

Section Resolver.

Context {N : Type}.

(** The interpreter that runs the script. *)
Variable py : version.

(** Python's [exec(code, globals, locals)], as far as the code acts on
    the two mappings it is given.  Code that reaches the variables of the
    caller by another way (through the frame objects of [sys], say) is
    outside the model. *)
Variable exec : text -> ns N -> ns N -> exec_result N.

(** The value of [sys.version_info < (3,6)], given what the name [sys]
    resolves to. *)
Definition version_test (sys : option (value N)) : option (result bool) :=
  match sys with
  | None => Some (Raise (NameError (T "sys")))
  | Some (VModule m) =>
      if text_eqb m (T "sys") then Some (Ok (before_3_6 py)) else None
  | Some (VNum _) | Some (VList _) | Some (VArray _) | Some (VStr _)
  | Some (VDict _) => Some (Raise (AttributeError (T "version_info")))
  | Some VNpArray | Some VOpaque => None
  end.

(** A name read by the body of a Python 2 function that holds an [exec]
    statement: the function's variables, then the module's. *)
Definition load_name (l g : ns N) (x : text) : option (value N) :=
  match dict_get l x with
  | Some v => Some v
  | None => dict_get g x
  end.

Section Call.

Variable a_string : text.
Variable a_dict : table N.

(** Line 119: the statement handed to [exec]. *)
Definition binding (key : text) : text := key ++ T "= np.array(val)".

(** Lines 124 and 126: the statement handed to [exec]. *)
Definition assignment (expr : text) : text := T "y = " ++ expr.

(** *** Python 2 *)

(** Lines 117-121, on the variables [l] of the call. *)
Fixpoint bind2 (items : list (text * list N)) (g l : ns N)
  : option (ns N * ns N) :=
  match items with
  | [] => Some (g, l)
  | (key, val) :: rest =>
      let l := dict_set (dict_set l (T "key") (VStr key))
                        (T "val") (VList val) in
      match exec (binding key) g l with
      | Done g' l' => bind2 rest g' l'
      | Raised _ g' l' => bind2 rest g' l'
      | Beyond => None
      end
  end.

Definition gety2 (g : ns N) : outcome N * ns N :=
  match dict_get a_dict a_string with
  | Some y => (Returns (VList y), g)
  | None =>
      let l := [(T "a_string", VStr a_string); (T "a_dict", VDict a_dict)] in
      match bind2 a_dict g l with
      | None => (Unmodelled, g)
      | Some (g, l) =>
          match version_test (load_name l g (T "sys")) with
          | None => (Unmodelled, g)
          | Some (Raise e) => (Raises e, g)
          | Some (Ok false) => (Unmodelled, g)   (* not on Python 2 *)
          | Some (Ok true) =>
              (* line 124: exec( 'y = '+a_string ) *)
              match dict_get l (T "a_string") with
              | Some (VStr s) =>
                  match exec (assignment s) g l with
                  | Done g' l' =>
                      match dict_get l' (T "y") with
                      | Some y => (Returns y, g')
                      | None => (Raises (UnboundLocalError (T "y")), g')
                      end
                  | Raised e g' _ => (Raises e, g')
                  | Beyond => (Unmodelled, g)
                  end
              | _ => (Unmodelled, g)
              end
          end
      end
  end.

(** *** Python 3 *)

(** The frame's dictionary brought up to date with the variables of the
    call: [a_string], [a_dict], [key] and [val] as they stand, and [y],
    which is unbound on this path, removed. *)
Definition refresh (d : ns N) (kv : option (text * list N)) : ns N :=
  let d := dict_set d (T "a_string") (VStr a_string) in
  let d := dict_set d (T "a_dict") (VDict a_dict) in
  let d := dict_del d (T "y") in
  match kv with
  | Some (key, val) =>
      dict_set (dict_set d (T "key") (VStr key)) (T "val") (VList val)
  | None => dict_del (dict_del d (T "key")) (T "val")
  end.

(** [locals()], and the mapping [exec] takes when given none. *)
Definition locals (d : ns N) (kv : option (text * list N)) : ns N :=
  if snapshot_locals py then refresh [] kv else refresh d kv.

(** Lines 117-121: the module's mapping, the frame's dictionary and the
    last item bound to [key, val]. *)
Fixpoint bind3 (items : list (text * list N)) (g d : ns N)
         (kv : option (text * list N))
  : option (ns N * ns N * option (text * list N)) :=
  match items with
  | [] => Some (g, d, kv)
  | (key, val) :: rest =>
      match exec (binding key) g (locals d (Some (key, val))) with
      | Done g' d' => bind3 rest g' d' (Some (key, val))
      | Raised _ g' d' => bind3 rest g' d' (Some (key, val))
      | Beyond => None
      end
  end.

Definition gety3 (g : ns N) : outcome N * ns N :=
  match dict_get a_dict a_string with
  | Some y => (Returns (VList y), g)
  | None =>
      match bind3 a_dict g [] None with
      | None => (Unmodelled, g)
      | Some (g, d, kv) =>
          match version_test (dict_get g (T "sys")) with
          | None => (Unmodelled, g)
          | Some (Raise e) => (Raises e, g)
          | Some (Ok true) =>
              (* line 124: exec( 'y = '+a_string ) *)
              match exec (assignment a_string) g (locals d kv) with
              | Done g' _ => (Raises (UnboundLocalError (T "y")), g')
              | Raised e g' _ => (Raises e, g')
              | Beyond => (Unmodelled, g)
              end
          | Some (Ok false) =>
              (* line 126: exec( 'y = '+a_string, locals(), globals() ) *)
              match exec (assignment a_string) (locals d kv) g with
              | Done _ g' => (Raises (UnboundLocalError (T "y")), g')
              | Raised e _ g' => (Raises e, g')
              | Beyond => (Unmodelled, g)
              end
          end
      end
  end.

End Call.

(** [gety(a_string, a_dict)] run with the module's mapping [g]: what the
    call does, and the module's mapping after it. *)
Definition gety (a_string : text) (a_dict : table N) (g : ns N)
  : outcome N * ns N :=
  if exec_statement py then gety2 a_string a_dict g
  else gety3 a_string a_dict g.

End Resolver.

(** ** A fragment of Python for [exec]

    Statements [NAME = expression], the expression built from names,
    decimal literals, [+ - *], unary [+ -], parentheses, attribute
    reference and calls of one argument.  Whatever is not recognised, and
    every operation of which the model is not sure, is [Beyond]; nothing is
    reported as an error that Python would accept. *)

Module Fragment.

Inductive token : Type :=
| TName (x : text)
| TNum (m : Z) (n : nat)
| TPlus | TMinus | TStar | TLpar | TRpar | TDot | TEq.

Inductive binop : Type := Add | Sub | Mul.

Inductive expr : Type :=
| EName (x : text)
| ENum (m : Z) (n : nat)
| ENeg (e : expr)
| EPos (e : expr)
| EBin (op : binop) (a b : expr)
| EAttr (e : expr) (attr : text)
| ECall (f arg : expr).

(** Words that are reserved in some version of Python. *)
Definition keywords : list text :=
  map T
   [
    "False"; "None"; "True"; "__debug__"; "and"; "as"; "assert"; "async";
    "await"; "break"; "class"; "continue"; "def"; "del"; "elif"; "else";
    "except"; "exec"; "finally"; "for"; "from"; "global"; "if"; "import";
    "in"; "is"; "lambda"; "nonlocal"; "not"; "or"; "pass"; "print";
    "raise"; "return"; "try"; "while"; "with"; "yield"
   ]%string.

(** Names found in the builtins module of some version of Python, and
    [__builtins__], which [exec] adds to the mapping it is given. *)
Definition builtin_names : list text :=
  map T
   [
    "ArithmeticError"; "AssertionError"; "AttributeError"; "BaseException";
    "BaseExceptionGroup"; "BlockingIOError"; "BrokenPipeError";
    "BufferError"; "BytesWarning"; "ChildProcessError";
    "ConnectionAbortedError"; "ConnectionError"; "ConnectionRefusedError";
    "ConnectionResetError"; "DeprecationWarning"; "EOFError"; "Ellipsis";
    "EncodingWarning"; "EnvironmentError"; "Exception"; "ExceptionGroup";
    "FileExistsError"; "FileNotFoundError"; "FloatingPointError";
    "FutureWarning"; "GeneratorExit"; "IOError"; "ImportError";
    "ImportWarning"; "IndentationError"; "IndexError"; "InterruptedError";
    "IsADirectoryError"; "KeyError"; "KeyboardInterrupt"; "LookupError";
    "MemoryError"; "ModuleNotFoundError"; "NameError";
    "NotADirectoryError"; "NotImplemented"; "NotImplementedError";
    "OSError"; "OverflowError"; "PendingDeprecationWarning";
    "PermissionError"; "ProcessLookupError"; "PythonFinalizationError";
    "RecursionError"; "ReferenceError"; "ResourceWarning"; "RuntimeError";
    "RuntimeWarning"; "StandardError"; "StopAsyncIteration";
    "StopIteration"; "SyntaxError"; "SyntaxWarning"; "SystemError";
    "SystemExit"; "TabError"; "TimeoutError"; "TypeError";
    "UnboundLocalError"; "UnicodeDecodeError"; "UnicodeEncodeError";
    "UnicodeError"; "UnicodeTranslateError"; "UnicodeWarning";
    "UserWarning"; "ValueError"; "Warning"; "WindowsError";
    "ZeroDivisionError"; "_IncompleteInputError"; "__build_class__";
    "__builtins__"; "__doc__"; "__import__"; "__loader__"; "__name__";
    "__package__"; "__spec__"; "abs"; "aiter"; "all"; "anext"; "any";
    "apply"; "ascii"; "basestring"; "bin"; "bool"; "breakpoint"; "buffer";
    "bytearray"; "bytes"; "callable"; "chr"; "classmethod"; "cmp";
    "coerce"; "compile"; "complex"; "copyright"; "credits"; "delattr";
    "dict"; "dir"; "divmod"; "enumerate"; "eval"; "execfile"; "exit";
    "file"; "filter"; "float"; "format"; "frozenset"; "getattr"; "globals";
    "hasattr"; "hash"; "help"; "hex"; "id"; "input"; "int"; "intern";
    "isinstance"; "issubclass"; "iter"; "len"; "license"; "list"; "locals";
    "long"; "map"; "max"; "memoryview"; "min"; "next"; "object"; "oct";
    "open"; "ord"; "pow"; "property"; "quit"; "range"; "raw_input";
    "reduce"; "reload"; "repr"; "reversed"; "round"; "set"; "setattr";
    "slice"; "sorted"; "staticmethod"; "str"; "sum"; "super"; "tuple";
    "type"; "unichr"; "unicode"; "vars"; "xrange"; "zip"
   ]%string.

Definition mem (x : text) (l : list text) : bool := existsb (text_eqb x) l.

Definition is_alpha (c : ascii) : bool :=
  let n := nat_of_ascii c in
  ((65 <=? n) && (n <=? 90)) || ((97 <=? n) && (n <=? 122)) || (n =? 95).

Definition is_alnum (c : ascii) : bool := is_alpha c || is_digit c.

Definition is_blank (c : ascii) : bool :=
  let n := nat_of_ascii c in (n =? 32) || (n =? 9).

(** The longest prefix of characters satisfying [p], and the rest. *)
Fixpoint span (p : ascii -> bool) (s : text) : text * text :=
  match s with
  | c :: r => if p c then let (a, b) := span p r in (c :: a, b) else ([], s)
  | [] => ([], [])
  end.

Definition digits_val (ds : text) : Z :=
  fold_left (fun acc d => (10 * acc + digit_val d)%Z) ds 0%Z.

(** A literal may not run into a name or a further digit group. *)
Definition ends_literal (rest : text) : bool :=
  match rest with
  | c :: _ => negb (is_alnum c)
  | [] => true
  end.

(** Characters that may continue a number in some version: an exponent
    ([e]), an imaginary ([j]) or a long ([l]) literal, the base after a
    zero ([x], [o], [b]) and the underscore between digits. *)
Definition continues_number (rest : text) : bool :=
  match rest with
  | c :: _ =>
      mem [c] (map T ["e"; "E"; "j"; "J"; "l"; "L"; "x"; "X"; "o"; "O";
                      "b"; "B"; "_"]%string)
  | [] => false
  end.

(** An integer part may be [0], but not start with it. *)
Definition plain_int (ds : text) : bool :=
  match ds with
  | c :: _ :: _ => negb (Ascii.eqb c (ascii_of_nat 48))
  | _ => true
  end.

Definition symbol (c : ascii) : option token :=
  let n := nat_of_ascii c in
  if n =? 43 then Some TPlus
  else if n =? 45 then Some TMinus
  else if n =? 42 then Some TStar
  else if n =? 40 then Some TLpar
  else if n =? 41 then Some TRpar
  else if n =? 61 then Some TEq
  else None.

Definition push (t : token) (ts : option (list token))
  : option (list token) :=
  match ts with
  | Some l => Some (t :: l)
  | None => None
  end.

Fixpoint tokens (fuel : nat) (s : text) : option (list token) :=
  match fuel with
  | 0 => None
  | S fuel =>
      match s with
      | [] => Some []
      | c :: r =>
          if is_blank c then tokens fuel r
          else if is_alpha c then
            let (name, rest) := span is_alnum s in
            if mem name keywords then None
            else push (TName name) (tokens fuel rest)
          else if is_digit c then
            let (ip, rest) := span is_digit s in
            if negb (plain_int ip) then None
            else match rest with
                 | d :: rest' =>
                     if is_point d then
                       let (fp, rest'') := span is_digit rest' in
                       if ends_literal rest''
                       then push (TNum (digits_val (ip ++ fp)) (length fp))
                                 (tokens fuel rest'')
                       else None
                     else if ends_literal rest
                          then push (TNum (digits_val ip) 0)
                                    (tokens fuel rest)
                     else if continues_number rest then None
                     else push (TNum (digits_val ip) 0) (tokens fuel rest)
                 | [] => Some [TNum (digits_val ip) 0]
                 end
          else if is_point c then
            let (fp, rest) := span is_digit r in
            match fp with
            | [] => push TDot (tokens fuel r)
            | _ => if ends_literal rest
                   then push (TNum (digits_val fp) (length fp))
                             (tokens fuel rest)
                   else None
            end
          else match symbol c with
               | Some t => push t (tokens fuel r)
               | None => None
               end
      end
  end.

(** The tokens of a statement; a statement may not start with a blank.
    Keywords, numbers in other notations than the decimal one and
    characters outside the fragment are not read.  A number that runs
    into a name which cannot continue it is read as the two tokens
    Python makes of it (or refuses at once). *)
Definition lex (code : text) : option (list token) :=
  match code with
  | c :: _ => if is_blank c then None else tokens (S (length code)) code
  | [] => None
  end.

(** *** Parsing, by recursive descent; [n] bounds the depth. *)

Fixpoint p_atom (n : nat) (ts : list token) : option (expr * list token) :=
  match n with
  | 0 => None
  | S n =>
      match ts with
      | TName x :: r => Some (EName x, r)
      | TNum m k :: r => Some (ENum m k, r)
      | TLpar :: r =>
          match p_sum n r with
          | Some (e, TRpar :: r') => Some (e, r')
          | _ => None
          end
      | _ => None
      end
  end
with p_trailers (n : nat) (e : expr) (ts : list token)
  : option (expr * list token) :=
  match n with
  | 0 => None
  | S n =>
      match ts with
      | TDot :: TName x :: r => p_trailers n (EAttr e x) r
      | TDot :: _ => None
      | TLpar :: r =>
          match p_sum n r with
          | Some (a, TRpar :: r') => p_trailers n (ECall e a) r'
          | _ => None
          end
      | _ => Some (e, ts)
      end
  end
with p_factor (n : nat) (ts : list token) : option (expr * list token) :=
  match n with
  | 0 => None
  | S n =>
      match ts with
      | TMinus :: r =>
          match p_factor n r with
          | Some (e, r') => Some (ENeg e, r')
          | None => None
          end
      | TPlus :: r =>
          match p_factor n r with
          | Some (e, r') => Some (EPos e, r')
          | None => None
          end
      | _ =>
          match p_atom n ts with
          | Some (a, r) => p_trailers n a r
          | None => None
          end
      end
  end
with p_term_rest (n : nat) (a : expr) (ts : list token)
  : option (expr * list token) :=
  match n with
  | 0 => None
  | S n =>
      match ts with
      | TStar :: r =>
          match p_factor n r with
          | Some (b, r') => p_term_rest n (EBin Mul a b) r'
          | None => None
          end
      | _ => Some (a, ts)
      end
  end
with p_sum_rest (n : nat) (a : expr) (ts : list token)
  : option (expr * list token) :=
  match n with
  | 0 => None
  | S n =>
      match ts with
      | TPlus :: r =>
          match p_factor n r with
          | Some (b, r') =>
              match p_term_rest n b r' with
              | Some (b', r'') => p_sum_rest n (EBin Add a b') r''
              | None => None
              end
          | None => None
          end
      | TMinus :: r =>
          match p_factor n r with
          | Some (b, r') =>
              match p_term_rest n b r' with
              | Some (b', r'') => p_sum_rest n (EBin Sub a b') r''
              | None => None
              end
          | None => None
          end
      | _ => Some (a, ts)
      end
  end
with p_sum (n : nat) (ts : list token) : option (expr * list token) :=
  match n with
  | 0 => None
  | S n =>
      match p_factor n ts with
      | Some (a, r) =>
          match p_term_rest n a r with
          | Some (a', r') => p_sum_rest n a' r'
          | None => None
          end
      | None => None
      end
  end.

(** [NAME = expression], the whole of the tokens. *)
Definition parse (ts : list token) : option (text * expr) :=
  match ts with
  | TName x :: TEq :: r =>
      match p_sum (2 * S (length r)) r with
      | Some (e, []) => Some (x, e)
      | _ => None
      end
  | _ => None
  end.

(** *** Statements that every version of Python rejects

    Three signs of a [SyntaxError] that can be read off the tokens and on
    which all versions agree: a statement that begins with [=]; an operand
    that follows an operand with nothing between them; and an assignment
    whose target is a literal, an operation or a call.  Other statements
    that Python rejects are not recognized, and stay outside the model. *)

(** Names that some version reads as a keyword where they stand. *)
Definition soft_keywords : list text :=
  map T ["match"; "case"; "type"; "_"]%string.

Definition soft (t : token) : bool :=
  match t with
  | TName x => mem x soft_keywords
  | _ => false
  end.

Definition ends_operand (t : token) : bool :=
  match t with
  | TName _ | TNum _ _ | TRpar => true
  | _ => false
  end.

Definition starts_operand (t : token) : bool :=
  match t with
  | TName _ | TNum _ _ => true
  | _ => false
  end.

Fixpoint juxtaposed (ts : list token) : bool :=
  match ts with
  | a :: r =>
      match r with
      | b :: _ => (ends_operand a && starts_operand b) || juxtaposed r
      | [] => false
      end
  | [] => false
  end.

(** The tokens before the first [=] and those after it. *)
Fixpoint before_eq (ts : list token) : option (list token * list token) :=
  match ts with
  | [] => None
  | TEq :: r => Some ([], r)
  | t :: r =>
      match before_eq r with
      | Some (a, b) => Some (t :: a, b)
      | None => None
      end
  end.

(** What may stand left of [=]: a name or an attribute. *)
Definition target (e : expr) : bool :=
  match e with
  | EName _ | EAttr _ _ => true
  | _ => false
  end.

(** A whole expression that is no target, followed by [=] and not by
    [==]. *)
Definition bad_target (ts : list token) : bool :=
  match before_eq ts with
  | Some (pre, post) =>
      match post with
      | TEq :: _ => false
      | _ =>
          match p_sum (2 * S (length pre)) pre with
          | Some (e, []) => negb (target e)
          | _ => false
          end
      end
  | None => false
  end.

Definition ill_formed (ts : list token) : bool :=
  match ts with
  | TEq :: _ => true
  | _ => (juxtaposed ts && negb (existsb soft ts)) || bad_target ts
  end.

(** The statements recognized as rejected. *)
Definition rejected (code : text) : bool :=
  match lex code with
  | Some ts =>
      match parse ts with
      | Some _ => false
      | None => ill_formed ts
      end
  | None => false
  end.

(** *** Evaluation *)

Section Eval.

Context {N : Type} {arith : Number N}.

Inductive answer : Type :=
| Value (v : value N)
| Error (e : exn)
| Unknown.

(** A name: the local mapping, the global one, then the builtins.  Which
    names the builtins hold depends on the version: a name that some
    version has there is left undecided, any other is a [NameError]. *)
Definition lookup (l g : ns N) (x : text) : answer :=
  match dict_get l x with
  | Some v => Value v
  | None =>
      match dict_get g x with
      | Some v => Value v
      | None => if mem x builtin_names then Unknown
                else Error (NameError x)
      end
  end.

Definition op2 (op : binop) : N -> N -> N :=
  match op with Add => add | Sub => sub | Mul => mul end.

(** [xs op ys] for arrays of one length. *)
Fixpoint zip_with (f : N -> N -> N) (xs ys : list N) : list N :=
  match xs, ys with
  | x :: xs', y :: ys' => f x y :: zip_with f xs' ys'
  | _, _ => []
  end.

Definition binary (op : binop) (a b : value N) : answer :=
  match a, b with
  | VNum x, VNum y => Value (VNum (op2 op x y))
  | VArray xs, VNum y => Value (VArray (map (fun x => op2 op x y) xs))
  | VNum x, VArray ys => Value (VArray (map (op2 op x) ys))
  | VArray xs, VArray ys =>
      if length xs =? length ys
      then Value (VArray (zip_with (op2 op) xs ys))
      else Unknown
  | _, _ => Unknown
  end.

Definition negative (a : value N) : answer :=
  match a with
  | VNum x => Value (VNum (neg x))
  | VArray xs => Value (VArray (map neg xs))
  | _ => Unknown
  end.

Definition positive (a : value N) : answer :=
  match a with
  | VNum x => Value (VNum x)
  | VArray xs => Value (VArray xs)
  | _ => Unknown
  end.

Definition attribute (a : value N) (attr : text) : answer :=
  match a with
  | VModule m =>
      if text_eqb m (T "numpy") && text_eqb attr (T "array")
      then Value VNpArray else Unknown
  | _ => Unknown
  end.

Definition call (f a : value N) : answer :=
  match f, a with
  | VNpArray, VList xs => Value (VArray xs)
  | VNpArray, VArray xs => Value (VArray xs)
  | _, _ => Unknown
  end.

(** Operands are evaluated left to right, the function before its
    argument, and all of them before the operation. *)
Fixpoint eval (l g : ns N) (e : expr) : answer :=
  match e with
  | EName x => lookup l g x
  | ENum m n => Value (VNum (lit m n))
  | ENeg a =>
      match eval l g a with
      | Value v => negative v
      | r => r
      end
  | EPos a =>
      match eval l g a with
      | Value v => positive v
      | r => r
      end
  | EBin op a b =>
      match eval l g a with
      | Value va =>
          match eval l g b with
          | Value vb => binary op va vb
          | r => r
          end
      | r => r
      end
  | EAttr a attr =>
      match eval l g a with
      | Value v => attribute v attr
      | r => r
      end
  | ECall f a =>
      match eval l g f with
      | Value vf =>
          match eval l g a with
          | Value va => call vf va
          | r => r
          end
      | r => r
      end
  end.

(** [exec(code, g, l)] on the fragment.  The code is compiled before
    anything is run: a statement that is rejected raises [SyntaxError],
    with its source, and touches neither mapping. *)
Definition exec (code : text) (g l : ns N) : exec_result N :=
  match lex code with
  | None => Beyond
  | Some ts =>
      match parse ts with
      | None =>
          if ill_formed ts then Raised (SyntaxError code) g l else Beyond
      | Some (x, e) =>
          match eval l g e with
          | Value v => Done g (dict_set l x v)
          | Error ex => Raised ex g l
          | Unknown => Beyond
          end
      end
  end.

End Eval.

End Fragment.

(** ** The module's mapping when [gety] is called

    The names of the module at the first call of [gety], line 208, on a
    run of CPython 3.11 with [--x], without [--fft], on a file that gave
    no labels: those the interpreter sets, the imports of lines 46-55, the
    two functions, and the variables of lines 132-173.  The modules are
    known by name; every other object stands as [VOpaque].  The names
    that other runs bind as well are not bound on this one: [OrderedDict]
    (before 3.6), [l] (with labels), [f] and [g] (with [--fft]), [key] and
    [t] (at later calls; the model of the plots adds them as the script
    does).  No line binds [y]. *)

Definition module_globals {N : Type} : ns N :=
  [ (T "__name__", VStr (T "__main__")); (T "__doc__", VOpaque);
    (T "__package__", VOpaque); (T "__loader__", VOpaque);
    (T "__spec__", VOpaque); (T "__annotations__", VOpaque);
    (T "__builtins__", VOpaque); (T "__file__", VOpaque);
    (T "__cached__", VOpaque);
    (T "sys", VModule (T "sys")); (T "argparse", VModule (T "argparse"));
    (T "np", VModule (T "numpy"));
    (T "plt", VModule (T "matplotlib.pyplot"));
    (T "signal", VModule (T "scipy.signal"));
    (T "fft", VModule (T "numpy.fft")); (T "shlex", VModule (T "shlex"));
    (T "readfile", VOpaque); (T "gety", VOpaque); (T "parser", VOpaque);
    (T "args", VOpaque); (T "cols", VOpaque); (T "comments", VOpaque);
    (T "labels", VOpaque); (T "nrows", VOpaque); (T "data", VOpaque);
    (T "n", VOpaque); (T "c", VOpaque) ].

(** [gety] on the fragment, with rational numbers. *)
Definition resolve (py : version) (a_string : text) (a_dict : table Q)
           (g : ns Q) : outcome Q * ns Q :=
  gety py Fragment.exec a_string a_dict g.

(** ** Lines 167-178: the Symbol Table *)

(** ['column%d' % n] *)
Definition column_name (n : nat) : text :=
  T "column" ++ T (NilZero.string_of_uint (Nat.to_uint n)).

Fixpoint enumerate {A : Type} (n : nat) (l : list A) : list (nat * A) :=
  match l with
  | [] => []
  | a :: r => (n, a) :: enumerate (S n) r
  end.

Definition symbol_table {V : Type} (cols : list V) (labels : list text)
  : dict V :=
  let data :=
    fold_left (fun d nc => dict_set d (column_name (fst nc)) (snd nc))
              (enumerate 0 cols) [] in
  match labels with
  | [] => data
  | _ => fold_left (fun d lc => dict_set d (fst lc) (snd lc))
                   (combine labels cols) data
  end.

(** ** Lines 182-218: the listing and the plots

    The branch of lines 206-218 is the one taken without [--fft].  The module's mapping [g] is
    threaded through the calls of [gety], with the assignments to [t],
    [key], [c] and [n] that the branch makes, since an expression may
    name them.  [data], [cols], [nrows] and the parsed arguments are read
    as lines 160-178 bound them: no statement of the fragment rebinds a
    name of the module other than [y]. *)

(** What lines 182-218 read of [args]: [--x], [--y] (one value or more
    when given), [--samplerate], [--contents] and [--fft]. *)
Record arguments (N : Type) : Type :=
  { args_x : option text;
    args_y : option (list text);
    args_samplerate : N;
    args_contents : bool;
    args_fft : bool }.

(** One call [plt.plot(t, c, label=...)]. *)
Inductive plot (N : Type) : Type :=
| Plot (t c : value N) (label : text).

(** How lines 182-218 end: with the plots made, in order; with an
    exception, after the plots made before it; with [sys.exit()] after
    the lines printed; or on a run the model does not follow. *)
Inductive branch (N : Type) : Type :=
| Plotted (plots : list (plot N))
| Failed (e : exn) (plots : list (plot N))
| Exited (printed : list text)
| Outside.

Arguments Plotted {N} plots.
Arguments Failed {N} e plots.
Arguments Exited {N} printed.
Arguments Outside {N}.

(** [sep.join(ws)] *)
Fixpoint join (sep : text) (ws : list text) : text :=
  match ws with
  | [] => []
  | w :: rest =>
      match rest with
      | [] => w
      | _ => w ++ sep ++ join sep rest
      end
  end.

(** Lines 183-186: what [--contents] prints. *)
Definition listing {V : Type} (comments : list text) (data : dict V)
  : list text :=
  (if 1 <? length comments then comments else [])
  ++ [T "keys: " ++ join (T ", ") (map fst data)].

(** ['column %d' % n] *)
Definition column_label (n : nat) : text :=
  T "column " ++ T (NilZero.string_of_uint (Nat.to_uint n)).

Definition sequence {N : Type} (v : value N) : option (list N) :=
  match v with
  | VList xs | VArray xs => Some xs
  | _ => None
  end.

(** [plt.plot(t, c)] draws two sequences of numbers of one length; what
    matplotlib makes of other arguments is not modelled. *)
Definition plottable {N : Type} (t c : value N) : bool :=
  match sequence t, sequence c with
  | Some a, Some b => length a =? length b
  | _, _ => false
  end.

Section Plots.

Context {N : Type} {arith : Number N}.

Variable py : version.

(** [np.linspace(0., nrows*samplerate, nrows)], from [nrows] and
    [samplerate]. *)
Variable linspace : nat -> N -> list N.

(** Lines 213-215. *)
Fixpoint plot_keys (keys : list text) (data : table N) (g : ns N)
         (plots : list (plot N)) : branch N :=
  match keys with
  | [] => Plotted plots
  | key :: rest =>
      let g := dict_set g (T "key") (VStr key) in
      match gety py Fragment.exec key data g with
      | (Returns c, g) =>
          let g := dict_set g (T "c") c in
          match dict_get g (T "t") with
          | Some t =>
              if plottable t c
              then plot_keys rest data g (plots ++ [Plot t c key])
              else Outside
          | None => Failed (NameError (T "t")) plots
          end
      | (Raises e, _) => Failed e plots
      | (Unmodelled, _) => Outside
      end
  end.

(** Lines 217-218. *)
Fixpoint plot_columns (ncs : list (nat * list N)) (g : ns N)
         (plots : list (plot N)) : branch N :=
  match ncs with
  | [] => Plotted plots
  | (n, c) :: rest =>
      let g := dict_set (dict_set g (T "n") VOpaque) (T "c") (VList c) in
      match dict_get g (T "t") with
      | Some t =>
          if plottable t (VList c)
          then plot_columns rest g (plots ++ [Plot t (VList c) (column_label n)])
          else Outside
      | None => Failed (NameError (T "t")) plots
      end
  end.

(** Lines 212-218, once [t] is bound. *)
Definition plot_all (args : arguments N) (cols : list (list N))
           (data : table N) (g : ns N) : branch N :=
  match args_y args with
  | Some (key :: rest) => plot_keys (key :: rest) data g []
  | Some [] | None => plot_columns (enumerate 0 cols) g []
  end.

(** Lines 207-218. *)
Definition plot_branch (args : arguments N) (nrows : nat)
           (cols : list (list N)) (data : table N) (g : ns N) : branch N :=
  match args_x args with
  | Some (c :: x) =>
      match gety py Fragment.exec (c :: x) data g with
      | (Returns t, g) => plot_all args cols data (dict_set g (T "t") t)
      | (Raises e, _) => Failed e []
      | (Unmodelled, _) => Outside
      end
  | Some [] | None =>
      plot_all args cols data
               (dict_set g (T "t")
                         (VArray (linspace nrows (args_samplerate args))))
  end.

(** Lines 182-218: the listing and the exit with [--contents]; the
    spectra of [--fft], which are not modelled; the plots otherwise. *)
Definition script (args : arguments N) (nrows : nat)
           (cols : list (list N)) (comments : list text) (data : table N)
           (g : ns N) : branch N :=
  if args_contents args then Exited (listing comments data)
  else if args_fft args then Outside
  else plot_branch args nrows cols data g.

End Plots.

(** ** Vocabulary of the statements *)

(** A line with its newline, and no other. *)
Definition whole_line (l : text) : Prop :=
  exists body, l = body ++ [nl] /\ ~ In nl body.

(** A stream positioned at its start. *)
Definition open_stream (s : text) : stream := {| contents := s; pos := 0 |}.

(** Lines joined, each with a newline. *)
Definition unlines (ls : list string) : text :=
  concat (map (fun l => T l ++ [nl]) ls).

(** A Python identifier of letters, digits and underscores that no
    version reserves. *)
Definition identifier (x : text) : bool :=
  match x with
  | c :: _ =>
      Fragment.is_alpha c && forallb Fragment.is_alnum x
      && negb (Fragment.mem x Fragment.keywords)
  | [] => false
  end.

(** Interpreters: the last Python 2, and three of Python 3. *)
Definition py27 : version := {| major := 2; minor := 7 |}.
Definition py35 : version := {| major := 3; minor := 5 |}.
Definition py311 : version := {| major := 3; minor := 11 |}.
Definition py313 : version := {| major := 3; minor := 13 |}.

(** The inputs of the scenarios. *)
Definition scenario_A : text := unlines ["x y"; "1.0 2.0"; "3.0 4.0"]%string.
Definition scenario_B : text := unlines ["1.0 2.0"; "not a number"; "3.0 4.0"]%string.
Definition scenario_C : table Q :=
  [(T "column0", [1; 2; 3]%Q); (T "column1", [4; 5; 6]%Q)].

(** [ls] are the lines that [readline] returns one after the other from
    the text [concat ls ++ tail]. *)
Fixpoint framed (ls : list text) (tail : text) : Prop :=
  match ls with
  | [] => True
  | l :: ls' => first_line (l ++ concat ls' ++ tail) = l /\ framed ls' tail
  end.

(** How the loop takes a line: a comment (kept while no row has been
    read), a row with its numbers, or a blank line. *)
Definition comment_line {F : Type} (float : text -> option F) (l : text)
  : Prop :=
  strip l <> [] /\ parse_row float (strip l) = None.

Definition row_line {F : Type} (float : text -> option F) (l : text)
           (v : list F) : Prop :=
  strip l <> [] /\ parse_row float (strip l) = Some v.

Definition blank_line (l : text) : Prop := strip l = [].

(** [tail] is where a table with row lines [rs] ends: at the end of the
    stream or a blank line, or, after a row, at a line that is no row. *)
Definition table_end {F : Type} (float : text -> option F) (rs : list text)
           (tail : text) : Prop :=
  blank_line (first_line tail)
  \/ (parse_row float (strip (first_line tail)) = None /\ rs <> []).

(** Where the loop leaves the stream [fp] when [n] characters of comment
    and row lines are followed by [tail]: past a blank line, before a line
    that is not blank. *)
Definition stops_at {F : Type} (sc : scan F) (fp : stream) (n : nat)
           (tail : text) : Prop :=
  contents (after sc) = contents fp
  /\ (blank_line (first_line tail) ->
      pos (after sc) = pos fp + n + length (first_line tail))
  /\ (~ blank_line (first_line tail) -> pos (after sc) = pos fp + n).

(** The right-hand side of line 119, [np.array(val)]. *)
Definition binding_expr : Fragment.expr :=
  Fragment.ECall
    (Fragment.EAttr (Fragment.EName (T "np")) (T "array"))
    (Fragment.EName (T "val")).

(** The expression a text denotes, when it lies in the fragment. *)
Definition expression_of (s : text) : option Fragment.expr :=
  match Fragment.tokens (S (length s)) s with
  | None => None
  | Some ts =>
      match Fragment.p_sum (2 * S (length ts)) ts with
      | Some (e, []) => Some e
      | _ => None
      end
  end.

(** Names a key must not take for the resolution of an expression in
    [undefined_name] to be left undisturbed: the name itself, the two
    modules the body of [gety] reads, and its parameter. *)
Definition reserved : list text :=
  [T "undefined_name"; T "np"; T "sys"; T "a_string"].

(** A key that the binding loop deals with without touching the names
    [avoid]: an identifier that is none of them, which the loop binds, or
    a text whose binding statement is rejected, which the loop passes
    over (line 120). *)
Definition passes (avoid : list text) (k : text) : Prop :=
  (identifier k = true /\ ~ In k avoid)
  \/ Fragment.rejected (binding k) = true.

Definition passing_keys {V : Type} (avoid : list text) (d : dict V) : Prop :=
  Forall (fun kv => passes avoid (fst kv)) d.

(** The names to avoid, the variables of [gety] apart, are unbound in the
    mapping [d]. *)
Definition clear {N : Type} (avoid : list text) (d : ns N) : Prop :=
  forall x, In x avoid ->
            x <> T "a_string" -> x <> T "a_dict" -> x <> T "y" ->
            x <> T "key" -> x <> T "val" -> dict_get d x = None.

(** The width of the narrowest row. *)
Definition narrowest {A : Type} (rows : list (list A)) : nat :=
  match rows with
  | [] => 0
  | first :: _ => fold_right (fun r m => Nat.min (length r) m) (length first) rows
  end.

(** A character that neither ends a word nor quotes nor escapes, and a
    word of such characters. *)
Definition plain_char (c : ascii) : bool :=
  negb (isspace c) && negb (Shlex.quotes c) && negb (Shlex.escape c).

Definition plain_word (w : text) : bool :=
  match w with
  | [] => false
  | _ => forallb plain_char w
  end.

(** Words with one space between them. *)
Fixpoint join_words (ws : list text) : text :=
  match ws with
  | [] => []
  | w :: rest =>
      match rest with
      | [] => w
      | _ => w ++ ascii_of_nat 32 :: join_words rest
      end
  end.

(** The columns under their positional names, in order. *)
Definition positional {V : Type} (cols : list V) : dict V :=
  map (fun nc => (column_name (fst nc), snd nc)) (enumerate 0 cols).

(** [data[k] = v] for a pair [(k, v)]. *)
Definition put {V : Type} (d : dict V) (kv : text * V) : dict V :=
  dict_set d (fst kv) (snd kv).

(** The names the body of [gety] uses itself: its parameters and
    variables, and the two modules it reads. *)
Definition own_names : list text :=
  [T "a_string"; T "a_dict"; T "y"; T "key"; T "val"; T "np"; T "sys"].

(** A table whose keys are distinct identifiers, none of them a name of
    [gety]'s own. *)
Definition usable_keys {V : Type} (d : dict V) : Prop :=
  NoDup (map fst d)
  /\ Forall (fun kv => identifier (fst kv) = true
                       /\ ~ In (fst kv) own_names) d.

(** The text [k1 op k2], a blank on each side of the operator. *)
Definition op_char (op : Fragment.binop) : ascii :=
  match op with
  | Fragment.Add => ascii_of_nat 43
  | Fragment.Sub => ascii_of_nat 45
  | Fragment.Mul => ascii_of_nat 42
  end.

Definition binary_text (op : Fragment.binop) (k1 k2 : text) : text :=
  k1 ++ ascii_of_nat 32 :: op_char op :: ascii_of_nat 32 :: k2.

(* ================================================================== *)
(** * Properties *)

(** ** The stream *)

Lemma first_line_prefix (s : text) :
  s = first_line s ++ skipn (length (first_line s)) s.
Proof.
  induction s as [|c r IH]; simpl; [reflexivity|].
  destruct (Ascii.eqb c nl); simpl; [reflexivity|].
  now rewrite <- IH.
Qed.

Lemma first_line_nil (s : text) : first_line s = [] -> s = [].
Proof.
  destruct s as [|c r]; simpl; [reflexivity|].
  destruct (Ascii.eqb c nl); discriminate.
Qed.

Lemma first_line_whole (l rest : text) :
  whole_line l -> first_line (l ++ rest) = l.
Proof.
  intros (body & -> & Hnl).
  induction body as [|c r IH]; simpl.
  - reflexivity.
  - destruct (Ascii.eqb_spec c nl) as [->|_].
    + exfalso; apply Hnl; now left.
    + f_equal; apply IH; intro H; apply Hnl; now right.
Qed.

Lemma whole_lines_framed (ls : list text) (tail : text) :
  Forall whole_line ls -> framed ls tail.
Proof.
  induction 1 as [|l ls Hl _ IH]; simpl; [exact I|].
  split; [now apply first_line_whole|exact IH].
Qed.

Lemma unread_skipn (fp : stream) (n : nat) :
  unread {| contents := contents fp; pos := pos fp + n |}
  = skipn n (unread fp).
Proof.
  unfold unread; simpl. now rewrite skipn_skipn, Nat.add_comm.
Qed.

(** What [readline] returns, and what it leaves. *)
Lemma readline_spec (fp : stream) :
  fst (readline fp) = first_line (unread fp)
  /\ contents (snd (readline fp)) = contents fp
  /\ pos (snd (readline fp)) = pos fp + length (fst (readline fp))
  /\ unread fp = fst (readline fp) ++ unread (snd (readline fp)).
Proof.
  unfold readline; simpl. repeat split.
  rewrite unread_skipn. apply first_line_prefix.
Qed.

Lemma readline_app (fp : stream) (l rest : text) :
  unread fp = l ++ rest -> first_line (l ++ rest) = l ->
  readline fp = (l, {| contents := contents fp; pos := pos fp + length l |})
  /\ unread {| contents := contents fp; pos := pos fp + length l |} = rest.
Proof.
  intros Hu Hl. unfold readline. rewrite Hu, Hl. split; [reflexivity|].
  rewrite unread_skipn, Hu, skipn_app, skipn_all, Nat.sub_diag.
  reflexivity.
Qed.

(** ** The loop terminates within its fuel *)

Section ReaderFacts.

Context {F : Type} (float : text -> option F).

Lemma read_loop_total (fuel : nat) :
  forall cmts rws npos line fp,
    1 <= fuel ->
    (line <> [] -> length (unread fp) + 2 <= fuel) ->
    exists sc, read_loop float fuel cmts rws npos line fp = Some sc.
Proof.
  induction fuel as [|fuel IH]; intros cmts rws npos line fp H1 H2; [lia|].
  cbn [read_loop]. destruct line as [|c line]; [eauto|].
  assert (Hf : length (unread fp) + 2 <= S fuel) by (apply H2; discriminate).
  destruct (strip (c :: line)) as [|c' line'] eqn:Es; [eauto|].
  assert (Hnext : forall cm rw np,
             exists sc, read_loop float fuel cm rw np (fst (readline fp))
                                  (snd (readline fp)) = Some sc).
  { intros cm rw np. apply IH; [lia|].
    destruct (readline_spec fp) as (_ & _ & _ & Hu). intros Hne.
    rewrite Hu in Hf. rewrite length_app in Hf.
    revert Hne Hf. destruct (fst (readline fp)); [congruence|].
    simpl. lia. }
  destruct (readline fp) as [line2 fp2] eqn:Er. simpl in Hnext.
  destruct (parse_row float (c' :: line')); [apply Hnext|].
  destruct rws; [apply Hnext|eauto].
Qed.

Lemma read_lines_total (fp : stream) :
  exists sc, read_lines float fp = Some sc.
Proof.
  unfold read_lines.
  destruct (readline_spec fp) as (_ & _ & _ & Hu).
  destruct (readline fp) as [line fp'] eqn:Er. simpl in Hu.
  apply read_loop_total; [lia|].
  intros Hne. rewrite Hu, length_app.
  destruct line; [congruence|]. simpl. lia.
Qed.

(** [readfile] always comes back: with its triple, or with an
    exception. *)
Lemma readfile_total (fp : stream) :
  exists out fp', readfile float fp = Some (out, fp').
Proof.
  unfold readfile. destruct (read_lines_total fp) as [sc ->].
  destruct (labels_of (comments sc)); eauto.
Qed.

End ReaderFacts.

(** ** The loop, line by line *)

Section ReaderSteps.

Context {F : Type} (float : text -> option F).

Lemma loop_row fuel cmts rws npos l v fp :
  row_line float l v ->
  read_loop float (S fuel) cmts rws npos l fp
  = read_loop float fuel cmts (rws ++ [v]) (tell fp)
              (fst (readline fp)) (snd (readline fp)).
Proof.
  intros [Hs Hp]. cbn [read_loop].
  destruct l as [|c l]; [now elim Hs|].
  destruct (strip (c :: l)) as [|c' l'] eqn:E; [now elim Hs|].
  rewrite Hp. now destruct (readline fp).
Qed.

Lemma loop_comment fuel cmts npos l fp :
  comment_line float l ->
  read_loop float (S fuel) cmts [] npos l fp
  = read_loop float fuel (cmts ++ [strip l]) [] (tell fp)
              (fst (readline fp)) (snd (readline fp)).
Proof.
  intros [Hs Hp]. cbn [read_loop].
  destruct l as [|c l]; [now elim Hs|].
  destruct (strip (c :: l)) as [|c' l'] eqn:E; [now elim Hs|].
  rewrite Hp. now destruct (readline fp).
Qed.

Lemma loop_blank fuel cmts rws npos l fp :
  blank_line l ->
  read_loop float (S fuel) cmts rws npos l fp
  = Some {| comments := cmts; rows := rws; after := fp |}.
Proof.
  unfold blank_line. intros Hs. cbn [read_loop].
  destruct l as [|c l]; [reflexivity|]. now rewrite Hs.
Qed.

Lemma loop_rewind fuel cmts rws npos l fp :
  comment_line float l -> rws <> [] ->
  read_loop float (S fuel) cmts rws npos l fp
  = Some {| comments := cmts; rows := rws; after := seek fp npos |}.
Proof.
  intros [Hs Hp] Hr. cbn [read_loop].
  destruct l as [|c l]; [now elim Hs|].
  destruct (strip (c :: l)) as [|c' l'] eqn:E; [now elim Hs|].
  rewrite Hp. destruct rws; [now elim Hr|reflexivity].
Qed.

End ReaderSteps.

(** ** The loop, phase by phase *)

Section ReaderPhases.

Context {F : Type} (float : text -> option F).

Lemma blank_dec (l : text) : {blank_line l} + {~ blank_line l}.
Proof. unfold blank_line. apply (list_eq_dec ascii_dec). Qed.

(** From a row on: further rows, then the end of the table. *)
Lemma loop_rows (rs : list text) :
  forall vs fuel cmts rws npos l v fp tail sc,
    row_line float l v ->
    framed rs tail -> Forall2 (row_line float) rs vs ->
    unread fp = concat rs ++ tail ->
    blank_line (first_line tail)
    \/ parse_row float (strip (first_line tail)) = None ->
    read_loop float fuel cmts rws npos l fp = Some sc ->
    comments sc = cmts /\ rows sc = rws ++ v :: vs
    /\ contents (after sc) = contents fp
    /\ (blank_line (first_line tail) ->
        pos (after sc)
        = pos fp + length (concat rs) + length (first_line tail))
    /\ (~ blank_line (first_line tail) ->
        pos (after sc) = pos fp + length (concat rs)).
Proof.
  induction rs as [|r rs IH];
    intros vs fuel cmts rws npos l v fp tail sc Hl Hw Hv Hu He Hrun.
  - inversion Hv; subst. simpl in Hu.
    destruct fuel as [|fuel]; [discriminate|].
    rewrite (loop_row _ _ _ _ _ Hl) in Hrun.
    destruct fuel as [|fuel]; [discriminate|].
    assert (Ht : fst (readline fp) = first_line tail)
      by (rewrite <- Hu; apply readline_spec).
    rewrite Ht in Hrun.
    destruct (blank_dec (first_line tail)) as [Hb|Hb].
    + rewrite (loop_blank _ _ _ _ _ _ Hb) in Hrun.
      injection Hrun as <-. simpl. rewrite Hu.
      repeat split; [lia|contradiction].
    + assert (Hc : comment_line float (first_line tail)).
      { split; [exact Hb|]. destruct He as [He|He]; [contradiction|exact He]. }
      rewrite (loop_rewind _ _ _ _ Hc) in Hrun
        by (intros E; now destruct rws).
      injection Hrun as <-. simpl.
      repeat split; [contradiction|unfold tell; lia].
  - inversion Hv as [|r' v2 rs' vs' Hr Hvs]; subst.
    destruct Hw as [Hwr Hws].
    simpl in Hu. rewrite <- app_assoc in Hu.
    destruct (@readline_app fp _ _ Hu Hwr) as [Hrl Hu2].
    destruct fuel as [|fuel]; [discriminate|].
    rewrite (loop_row _ _ _ _ _ Hl), Hrl in Hrun. simpl in Hrun.
    destruct (IH _ _ _ _ _ _ _ _ _ _ Hr Hws Hvs Hu2 He Hrun)
      as (Hc & Hrows & Hcont & Hp1 & Hp2).
    simpl in Hcont, Hp1, Hp2. rewrite <- app_assoc in Hrows.
    simpl concat. rewrite length_app.
    repeat split; try assumption.
    + intros Hb. rewrite (Hp1 Hb). lia.
    + intros Hb. rewrite (Hp2 Hb). lia.
Qed.

End ReaderPhases.

Section ReaderTable.

Context {F : Type} (float : text -> option F).

Lemma stops_at_shift (sc : scan F) fp (l : text) n tail :
  stops_at sc {| contents := contents fp; pos := pos fp + length l |}
           n tail ->
  stops_at sc fp (length l + n) tail.
Proof.
  intros (Hc & H1 & H2). simpl in *. repeat split; [exact Hc| |].
  - intros Hb. rewrite (H1 Hb). lia.
  - intros Hb. rewrite (H2 Hb). lia.
Qed.

(** The next line read is the first of the table, if it has one. *)
Lemma loop_table fuel cmts npos fp rs vs tail sc :
  framed rs tail -> Forall2 (row_line float) rs vs ->
  unread fp = concat rs ++ tail ->
  table_end float rs tail ->
  read_loop float fuel cmts [] npos (fst (readline fp)) (snd (readline fp))
  = Some sc ->
  comments sc = cmts /\ rows sc = vs
  /\ stops_at sc fp (length (concat rs)) tail.
Proof.
  intros Hw Hv Hu He Hrun. destruct rs as [|r rs].
  - inversion Hv; subst. simpl in Hu.
    destruct He as [Hb|[_ Hne]]; [|now elim Hne].
    assert (Ht : fst (readline fp) = first_line tail)
      by (rewrite <- Hu; apply readline_spec).
    destruct fuel as [|fuel]; [discriminate|].
    rewrite Ht, (loop_blank _ _ _ _ _ _ Hb) in Hrun.
    injection Hrun as <-. unfold stops_at. simpl. rewrite Hu.
    repeat split; [lia|contradiction].
  - inversion Hv as [|r' v rs' vs' Hr Hvs]; subst.
    destruct Hw as [Hwr Hws].
    simpl in Hu. rewrite <- app_assoc in Hu.
    destruct (@readline_app fp _ _ Hu Hwr) as [Hrl Hu2].
    rewrite Hrl in Hrun. simpl in Hrun.
    assert (He' : blank_line (first_line tail)
                  \/ parse_row float (strip (first_line tail)) = None)
      by (destruct He as [Hb|[Hp _]]; [now left|now right]).
    destruct (@loop_rows _ float _ _ _ _ _ _ _ _ _ _ _ Hr Hws Hvs Hu2 He' Hrun)
      as (Hc & Hrows & Hs).
    split; [assumption|split; [assumption|]].
    simpl concat. rewrite length_app. now apply stops_at_shift.
Qed.

(** From a comment on: further comments, then the table. *)
Lemma loop_comments (cs : list text) :
  forall fuel cmts npos c fp rs vs tail sc,
    comment_line float c ->
    framed cs (concat rs ++ tail) -> Forall (comment_line float) cs ->
    framed rs tail -> Forall2 (row_line float) rs vs ->
    unread fp = concat cs ++ concat rs ++ tail ->
    table_end float rs tail ->
    read_loop float fuel cmts [] npos c fp = Some sc ->
    comments sc = cmts ++ strip c :: map strip cs /\ rows sc = vs
    /\ stops_at sc fp (length (concat cs ++ concat rs)) tail.
Proof.
  induction cs as [|c2 cs IH];
    intros fuel cmts npos c fp rs vs tail sc Hc Hwc Hcc Hw Hv Hu He Hrun;
    (destruct fuel as [|fuel]; [discriminate|]);
    rewrite (loop_comment _ _ _ _ Hc) in Hrun.
  - simpl in Hu |- *.
    destruct (@loop_table _ _ _ _ _ _ _ _ Hw Hv Hu He Hrun)
      as (H1 & H2 & H3).
    split; [exact H1|split; [exact H2|exact H3]].
  - destruct Hwc as [Hw2 Hwcs].
    inversion Hcc as [|? ? Hc2 Hccs]; subst.
    simpl in Hu. rewrite <- app_assoc in Hu.
    destruct (@readline_app fp _ _ Hu Hw2) as [Hrl Hu2].
    rewrite Hrl in Hrun. simpl in Hrun.
    destruct (IH _ _ _ _ _ _ _ _ _ Hc2 Hwcs Hccs Hw Hv Hu2 He Hrun)
      as (H1 & H2 & H3).
    rewrite <- app_assoc in H1. simpl in H1.
    split; [assumption|split; [assumption|]].
    simpl concat. rewrite <- app_assoc, length_app.
    now apply stops_at_shift.
Qed.

(** Lines 66-92 on a stream that holds comment lines [cs], then row
    lines [rs], then the end of the table. *)
Lemma read_lines_spec fp cs rs vs tail sc :
  framed cs (concat rs ++ tail) -> Forall (comment_line float) cs ->
  framed rs tail -> Forall2 (row_line float) rs vs ->
  unread fp = concat cs ++ concat rs ++ tail ->
  table_end float rs tail ->
  read_lines float fp = Some sc ->
  comments sc = map strip cs /\ rows sc = vs
  /\ stops_at sc fp (length (concat cs ++ concat rs)) tail.
Proof.
  intros Hwc Hcc Hw Hv Hu He Hrun. unfold read_lines in Hrun.
  destruct cs as [|c cs].
  - simpl in Hu |- *.
    assert (Hrun' : read_loop float (S (length (unread fp))) [] [] (tell fp)
                      (fst (readline fp)) (snd (readline fp)) = Some sc)
      by (now destruct (readline fp)).
    destruct (@loop_table _ _ _ _ _ _ _ _ Hw Hv Hu He Hrun')
      as (H1 & H2 & H3).
    split; [exact H1|split; [exact H2|exact H3]].
  - destruct Hwc as [Hw1 Hwcs].
    inversion Hcc as [|? ? Hc1 Hccs]; subst.
    simpl in Hu. rewrite <- app_assoc in Hu.
    destruct (@readline_app fp _ _ Hu Hw1) as [Hrl Hu2].
    rewrite Hrl in Hrun.
    destruct (@loop_comments _ _ _ _ _ _ _ _ _ _ Hc1 Hwcs Hccs Hw Hv Hu2
                            He Hrun)
      as (H1 & H2 & H3).
    simpl in H1. split; [assumption|split; [assumption|]].
    simpl concat. rewrite <- app_assoc, length_app.
    now apply stops_at_shift.
Qed.

End ReaderTable.

(** ** Columns *)

Lemma map_try_length {A B : Type} (f : A -> option B) (l : list A) :
  forall bs, map_try f l = Some bs -> length bs = length l.
Proof.
  induction l as [|a l IH]; simpl; intros bs H.
  - now injection H as <-.
  - destruct (f a); [|discriminate].
    destruct (map_try f l) as [bs'|]; [|discriminate].
    injection H as <-. simpl. now rewrite (IH bs').
Qed.

Lemma zip_star_lengths {A : Type} (first : list A) :
  forall rows,
    Forall (fun col => length col = length rows) (zip_star first rows).
Proof.
  induction first as [|x first IH]; intros rows; simpl; [constructor|].
  destruct (map_try (@hd_error A) rows) as [heads|] eqn:E; [|constructor].
  constructor.
  - now apply map_try_length in E.
  - specialize (IH (map (@tl A) rows)). now rewrite length_map in IH.
Qed.

Lemma columns_of_lengths {A : Type} (rows : list (list A)) :
  Forall (fun col => length col = length rows) (columns_of rows).
Proof.
  destruct rows as [|first rows]; [constructor|].
  apply zip_star_lengths.
Qed.

(** ** The label tokenizer raises two errors only *)

Lemma shlex_errors (input : text) :
  forall st es token quoted acc e,
    Shlex.lex input st es token quoted acc = Raise e ->
    e = ValueError "No closing quotation"
    \/ e = ValueError "No escaped character".
Proof.
  induction input as [|c input IH]; intros st es token quoted acc e H.
  - destruct st; simpl in H; try discriminate;
      injection H as <-; [now left|now right].
  - destruct st; simpl in H;
      repeat match type of H with
             | context [if ?b then _ else _] => destruct b
             end; eapply IH; eassumption.
Qed.

Lemma labels_of_errors (cmts : list text) (e : exn) :
  labels_of cmts = Raise e ->
  e = ValueError "No closing quotation"
  \/ e = ValueError "No escaped character".
Proof.
  destruct cmts as [|c cmts]; [discriminate|].
  unfold labels_of, Shlex.split. apply shlex_errors.
Qed.

(** ** Every text is comment lines, row lines and the end of a table *)

Section Framing.

Context {F : Type} (float : text -> option F).

Lemma first_line_shorter (s : text) :
  first_line s <> [] ->
  length (skipn (length (first_line s)) s) < length s.
Proof.
  intros Hne.
  pose proof (f_equal (@length ascii) (first_line_prefix s)) as H.
  rewrite length_app in H. revert Hne H.
  destruct (first_line s); [congruence|]. simpl. lia.
Qed.

Lemma not_blank_nonempty (l : text) : ~ blank_line l -> l <> [].
Proof. intros H ->. now apply H. Qed.

Lemma rows_frame (n : nat) :
  forall s, length s <= n ->
  exists rs vs tail,
    s = concat rs ++ tail /\ framed rs tail
    /\ Forall2 (row_line float) rs vs
    /\ (blank_line (first_line tail)
        \/ parse_row float (strip (first_line tail)) = None).
Proof.
  induction n as [|n IH]; intros s Hn.
  - destruct s; [|simpl in Hn; lia].
    exists [], [], []. repeat split; [constructor|now left].
  - destruct (blank_dec (first_line s)) as [Hb|Hb].
    { exists [], [], s. repeat split; [constructor|now left]. }
    destruct (parse_row float (strip (first_line s))) as [v|] eqn:Ep.
    2:{ exists [], [], s. repeat split; [constructor|now right]. }
    pose proof (first_line_shorter s (not_blank_nonempty Hb)) as Hlt.
    destruct (IH (skipn (length (first_line s)) s)) as (rs & vs & tail & Hs & Hf & Hv & He);
      [lia|].
    exists (first_line s :: rs), (v :: vs), tail.
    assert (Hs' : s = first_line s ++ concat rs ++ tail)
      by (rewrite <- Hs; apply first_line_prefix).
    split; [simpl; now rewrite <- app_assoc|].
    split; [split; [now rewrite <- Hs'|exact Hf]|].
    split; [constructor; [now split|exact Hv]|exact He].
Qed.

Lemma stream_frame (n : nat) :
  forall s, length s <= n ->
  exists cs rs vs tail,
    s = concat cs ++ concat rs ++ tail
    /\ framed cs (concat rs ++ tail) /\ Forall (comment_line float) cs
    /\ framed rs tail /\ Forall2 (row_line float) rs vs
    /\ table_end float rs tail.
Proof.
  induction n as [|n IH]; intros s Hn.
  - destruct s; [|simpl in Hn; lia].
    exists [], [], [], [].
    repeat (split; [first [reflexivity|exact I|constructor]|]).
    now left.
  - destruct (blank_dec (first_line s)) as [Hb|Hb].
    { exists [], [], [], s.
      repeat (split; [first [reflexivity|exact I|constructor]|]).
      now left. }
    destruct (parse_row float (strip (first_line s))) as [v|] eqn:Ep.
    + destruct (rows_frame (n := S n) s Hn)
        as (rs & vs & tail & Hs & Hf & Hv & He).
      exists [], rs, vs, tail.
      split; [exact Hs|]. split; [exact I|]. split; [constructor|].
      split; [exact Hf|]. split; [exact Hv|].
      destruct He as [He|He]; [now left|right; split; [exact He|]].
      intros ->. simpl in Hs. subst tail. congruence.
    + pose proof (first_line_shorter s (not_blank_nonempty Hb)) as Hlt.
      destruct (IH (skipn (length (first_line s)) s))
        as (cs & rs & vs & tail & Hs & Hfc & Hc & Hf & Hv & He); [lia|].
      exists (first_line s :: cs), rs, vs, tail.
      assert (Hs' : s = first_line s ++ concat cs ++ concat rs ++ tail)
        by (rewrite <- Hs; apply first_line_prefix).
      split; [simpl; now rewrite <- app_assoc|].
      split; [split; [now rewrite <- Hs'|exact Hfc]|].
      split; [constructor; [now split|exact Hc]|].
      now repeat split.
Qed.

End Framing.

Lemma every_text_framed {F : Type} (float : text -> option F) (s : text) :
  exists cs rs vs tail,
    s = concat cs ++ concat rs ++ tail
    /\ framed cs (concat rs ++ tail) /\ Forall (comment_line float) cs
    /\ framed rs tail /\ Forall2 (row_line float) rs vs
    /\ table_end float rs tail.
Proof. apply (stream_frame float (n := length s)). lia. Qed.

Lemma unread_after {F : Type} (sc : scan F) (fp : stream) (n : nat) :
  contents (after sc) = contents fp -> pos (after sc) = pos fp + n ->
  unread (after sc) = skipn n (unread fp).
Proof.
  intros Hc Hp. unfold unread. now rewrite Hc, Hp, skipn_skipn, Nat.add_comm.
Qed.

(** A stream of comment lines and nothing else. *)
Lemma read_comments_only {F : Type} (float : text -> option F) fp cs sc :
  framed cs [] -> Forall (comment_line float) cs ->
  unread fp = concat cs ->
  read_lines float fp = Some sc ->
  comments sc = map strip cs /\ rows sc = [].
Proof.
  intros Hf Hc Hu Hrun.
  destruct (@read_lines_spec F float fp cs [] [] [] sc) as (H1 & H2 & _);
    [exact Hf|exact Hc|exact I|constructor| |left; reflexivity|exact Hrun|].
  - simpl. now rewrite app_nil_r.
  - now split.
Qed.

(** What [readfile] makes of any stream: the stream is comment lines,
    row lines and the end of a table, in one way, and the loop returns
    those comments and those rows and stops at that end. *)
Lemma every_stream_read {F : Type} (float : text -> option F) (fp : stream) :
  exists cs rs vs tail sc,
    unread fp = concat cs ++ concat rs ++ tail
    /\ framed cs (concat rs ++ tail) /\ Forall (comment_line float) cs
    /\ framed rs tail /\ Forall2 (row_line float) rs vs
    /\ table_end float rs tail
    /\ read_lines float fp = Some sc
    /\ comments sc = map strip cs /\ rows sc = vs
    /\ stops_at sc fp (length (concat cs ++ concat rs)) tail.
Proof.
  destruct (every_text_framed float (unread fp))
    as (cs & rs & vs & tail & Hu & Hfc & Hc & Hfr & Hv & He).
  destruct (read_lines_total float fp) as [sc Hsc].
  destruct (@read_lines_spec F float fp cs rs vs tail sc Hfc Hc Hfr Hv Hu He
              Hsc) as (H1 & H2 & H3).
  exists cs, rs, vs, tail, sc. tauto.
Qed.

(** * The claims about the reader *)

(** C5. Scenario A: reading ["x y\n1.0 2.0\n3.0 4.0\n"] returns the columns
    [[1.0, 3.0], [2.0, 4.0]], the comments ["x y"] and the labels
    ["x", "y"], the whole stream being consumed. *)
Theorem scenario_A_read :
  readfile float_of_text (open_stream scenario_A)
  = Some (Ok ([[Finite 1; Finite 3]; [Finite 2; Finite 4]],
              [T "x y"], [T "x"; T "y"]),
          {| contents := scenario_A; pos := 20 |}).
Proof. vm_compute. reflexivity. Qed.

(** C3. The labels come from the last comment; a leading [#] is dropped,
    but of a leading word [labels] only the first letter is: on the input
    ["labels a b\n1 2\n"] the labels are ["abels", "a", "b"], where the
    claim has ["a", "b"]. *)
Theorem labels_word_loses_one_letter :
  readfile float_of_text (open_stream (unlines ["labels a b"; "1 2"]%string))
  = Some (Ok ([[Finite 1]; [Finite 2]],
              [T "labels a b"], [T "abels"; T "a"; T "b"]),
          {| contents := unlines ["labels a b"; "1 2"]%string; pos := 15 |}).
Proof. vm_compute. reflexivity. Qed.

(** The marker [#] itself is stripped as the claim says. *)
Lemma labels_marker_stripped :
  labels_of [T "first"; T "# x 'y z'"] = Ok [T "x"; T "y z"].
Proof. vm_compute. reflexivity. Qed.

(** C6, as stated, fails: a last comment with an open quote makes the
    label tokenizer raise, and [readfile] does not catch it. *)
Lemma read_raises_on_open_quote :
  ~ (forall fp : stream,
        exists r fp', readfile float_of_text fp = Some (Ok r, fp')).
Proof.
  intros H.
  destruct (H (open_stream (unlines ["it's data"; "1 2"]%string)))
    as (r & fp' & E).
  vm_compute in E. discriminate E.
Qed.

(** The reader on a stream whose operations may raise. *)
Section FallibleFacts.

Context {F : Type} (float : text -> option F).

(** What the loop raises, an operation of the stream raised. *)
Lemma fallible_loop_raises (Fp : Type) (tell : Fp -> result nat)
      (readline : Fp -> result (text * Fp)) (seek : Fp -> nat -> result Fp)
      (fuel : nat) :
  forall cmts rws npos line fp e,
    Fallible.read_loop float tell readline seek fuel cmts rws npos line fp
    = Some (Raise e) ->
    (exists fp', tell fp' = Raise e)
    \/ (exists fp', readline fp' = Raise e)
    \/ (exists fp' n, seek fp' n = Raise e).
Proof.
  induction fuel as [|fuel IH]; intros cmts rws npos line fp e;
    [discriminate|].
  cbn [Fallible.read_loop]. destruct line as [|c line]; [discriminate|].
  destruct (strip (c :: line)) as [|c' line']; [discriminate|].
  assert (Hnext : forall cm rw,
             match tell fp with
             | Raise e0 => Some (Raise e0)
             | Ok npos0 =>
                 match readline fp with
                 | Raise e0 => Some (Raise e0)
                 | Ok (line2, fp2) =>
                     Fallible.read_loop float tell readline seek fuel cm rw
                                        npos0 line2 fp2
                 end
             end = Some (Raise e) ->
             (exists fp', tell fp' = Raise e)
             \/ (exists fp', readline fp' = Raise e)
             \/ (exists fp' n, seek fp' n = Raise e)).
  { intros cm rw. destruct (tell fp) as [n|e0] eqn:Et.
    - destruct (readline fp) as [[line2 fp2]|e0] eqn:Er.
      + apply IH.
      + intros [= <-]. right. left. now exists fp.
    - intros [= <-]. left. now exists fp. }
  destruct (parse_row float (c' :: line')); [apply Hnext|].
  destruct rws; [apply Hnext|].
  destruct (seek fp npos) as [fp'|e0] eqn:Es; [discriminate|].
  intros [= <-]. right. right. now exists fp, npos.
Qed.

(** On a stream of text the loop is the one of [read_loop]. *)
Lemma fallible_loop_text (fuel : nat) :
  forall cmts rws npos line fp,
    Fallible.read_loop float text_tell text_readline text_seek fuel cmts rws
                       npos line fp
    = match read_loop float fuel cmts rws npos line fp with
      | Some sc => Some (Ok (comments sc, rows sc, after sc))
      | None => None
      end.
Proof.
  induction fuel as [|fuel IH]; intros cmts rws npos line fp; [reflexivity|].
  cbn [Fallible.read_loop read_loop].
  destruct line as [|c line]; [reflexivity|].
  destruct (strip (c :: line)) as [|c' line']; [reflexivity|].
  unfold text_tell, text_readline, text_seek.
  destruct (readline fp) as [line2 fp2].
  destruct (parse_row float (c' :: line')); [apply IH|].
  destruct rws; [apply IH|reflexivity].
Qed.

Lemma fallible_readfile_text (fp : stream) :
  Fallible.readfile float text_tell text_readline text_seek
                    (S (length (unread fp))) fp
  = match readfile float fp with
    | Some (Ok r, fp') => Some (Ok (r, fp'))
    | Some (Raise e, _) => Some (Raise e)
    | None => None
    end.
Proof.
  unfold Fallible.readfile, Fallible.read_lines, readfile, read_lines.
  unfold text_tell at 1. unfold text_readline at 1.
  destruct (readline fp) as [line fp1]. rewrite fallible_loop_text.
  destruct (read_loop float _ [] [] (tell fp) line fp1) as [sc|];
    [|reflexivity].
  now destruct (labels_of (comments sc)).
Qed.

End FallibleFacts.

(** C6, amended.  [readfile] raises nothing of its own making but the two
    [ValueError]s of the label tokenizer (a quote left open, a backslash
    at the end of the last comment), and it catches nothing that the
    stream raises: an exception of [tell], [readline] or [seek], at the
    start or at any turn of the loop, ends the call and reaches the
    caller.  On a stream of text, whose operations always return,
    [readfile] always comes back, with a result or with one of those two
    errors; an empty stream gives empty columns, comments and labels; and
    a stream of comment lines only, when its labels tokenize, gives no
    columns and those lines, stripped, as comments. *)
Theorem read_raises_only_from_labels :
  forall (F : Type) (float : text -> option F),
    (forall (Fp : Type) (tell : Fp -> result nat)
            (readline : Fp -> result (text * Fp))
            (seek : Fp -> nat -> result Fp) (fuel : nat) (fp : Fp) (e : exn),
        (Fallible.readfile float tell readline seek fuel fp = Some (Raise e) ->
         (exists fp', tell fp' = Raise e)
         \/ (exists fp', readline fp' = Raise e)
         \/ (exists fp' n, seek fp' n = Raise e)
         \/ e = ValueError "No closing quotation"
         \/ e = ValueError "No escaped character")
        /\ (tell fp = Raise e ->
            Fallible.readfile float tell readline seek fuel fp
            = Some (Raise e))
        /\ (forall npos,
              tell fp = Ok npos -> readline fp = Raise e ->
              Fallible.readfile float tell readline seek fuel fp
              = Some (Raise e))
        /\ (forall npos line fp1,
              tell fp = Ok npos -> readline fp = Ok (line, fp1) ->
              Fallible.read_loop float tell readline seek fuel [] [] npos
                                 line fp1 = Some (Raise e) ->
              Fallible.readfile float tell readline seek fuel fp
              = Some (Raise e))
        /\ (forall cmts rws npos line,
              strip line <> [] ->
              parse_row float (strip line) <> None \/ rws = [] ->
              tell fp = Raise e
              \/ (exists n, tell fp = Ok n /\ readline fp = Raise e) ->
              Fallible.read_loop float tell readline seek (S fuel) cmts rws
                                 npos line fp = Some (Raise e))
        /\ (forall cmts rws npos line,
              strip line <> [] ->
              parse_row float (strip line) = None -> rws <> [] ->
              seek fp npos = Raise e ->
              Fallible.read_loop float tell readline seek (S fuel) cmts rws
                                 npos line fp = Some (Raise e)))
    /\ (forall fp : stream,
          Fallible.readfile float text_tell text_readline text_seek
                            (S (length (unread fp))) fp
          = match readfile float fp with
            | Some (Ok r, fp') => Some (Ok (r, fp'))
            | Some (Raise e, _) => Some (Raise e)
            | None => None
            end)
    /\ (forall fp : stream,
        exists out fp',
          readfile float fp = Some (out, fp')
          /\ (forall e, out = Raise e ->
                e = ValueError "No closing quotation"
                \/ e = ValueError "No escaped character")
          /\ (unread fp = [] -> out = Ok ([], [], []))
          /\ (forall cs cols cmts labels,
                framed cs [] -> Forall (comment_line float) cs ->
                unread fp = concat cs ->
                out = Ok (cols, cmts, labels) ->
                cols = [] /\ cmts = map strip cs)).
Proof.
  intros F float. split; [|split].
  - intros Fp tell readline seek fuel fp e.
    split; [|split; [|split; [|split; [|split]]]].
    + unfold Fallible.readfile, Fallible.read_lines.
      destruct (tell fp) as [npos|e0] eqn:Et;
        [|intros [= <-]; left; now exists fp].
      destruct (readline fp) as [[line fp1]|e0] eqn:Er;
        [|intros [= <-]; right; left; now exists fp].
      destruct (Fallible.read_loop float tell readline seek fuel [] [] npos
                                   line fp1) as [[[[cmts rws] fp2]|e0]|] eqn:El;
        [|intros [= <-]|discriminate].
      * destruct (labels_of cmts) as [labels|e0] eqn:Elab; [discriminate|].
        intros [= <-]. apply labels_of_errors in Elab. tauto.
      * apply fallible_loop_raises in El. tauto.
    + intros Et. unfold Fallible.readfile, Fallible.read_lines.
      now rewrite Et.
    + intros npos Et Er. unfold Fallible.readfile, Fallible.read_lines.
      now rewrite Et, Er.
    + intros npos line fp1 Et Er El.
      unfold Fallible.readfile, Fallible.read_lines.
      now rewrite Et, Er, El.
    + intros cmts rws npos line Hs Hrow Hfault. cbn [Fallible.read_loop].
      destruct line as [|c line]; [now elim Hs|].
      destruct (strip (c :: line)) as [|c' line']; [now elim Hs|].
      assert (Hnext : forall cm rw,
                 match tell fp with
                 | Raise e0 => Some (Raise e0)
                 | Ok npos0 =>
                     match readline fp with
                     | Raise e0 => Some (Raise e0)
                     | Ok (line2, fp2) =>
                         Fallible.read_loop float tell readline seek fuel cm
                                            rw npos0 line2 fp2
                     end
                 end = Some (Raise e)).
      { intros cm rw. destruct Hfault as [->|(n & -> & ->)]; reflexivity. }
      destruct (parse_row float (c' :: line')); [apply Hnext|].
      destruct Hrow as [Hrow| ->]; [now elim Hrow|apply Hnext].
    + intros cmts rws npos line Hs Hrow Hrws Hseek. cbn [Fallible.read_loop].
      destruct line as [|c line]; [now elim Hs|].
      destruct (strip (c :: line)) as [|c' line']; [now elim Hs|].
      rewrite Hrow. destruct rws; [now elim Hrws|]. now rewrite Hseek.
  - apply fallible_readfile_text.
  - intros fp.
    destruct (read_lines_total float fp) as [sc Hsc].
    unfold readfile. rewrite Hsc.
    destruct (labels_of (comments sc)) as [labels|e] eqn:El.
    + eexists _, _. split; [reflexivity|]. split; [discriminate|]. split.
      * intros Hu.
        destruct (@read_comments_only F float fp [] sc I (Forall_nil _) Hu Hsc)
          as [Hc Hr].
        rewrite Hr. rewrite Hc in El. simpl in El. injection El as <-.
        now rewrite Hc.
      * intros cs cols cmts labels' Hf Hcs Hu [= <- <- <-].
        destruct (@read_comments_only F float fp cs sc Hf Hcs Hu Hsc)
          as [Hc Hr].
        rewrite Hr. now split.
    + eexists _, _. split; [reflexivity|]. split.
      * intros e' [= <-]. now apply labels_of_errors in El.
      * split.
        -- intros Hu.
           destruct (@read_comments_only F float fp [] sc I (Forall_nil _) Hu
                       Hsc) as [Hc _].
           rewrite Hc in El. discriminate El.
        -- intros; discriminate.
Qed.

Lemma read_raises_only_from_labels_witness :
  Fallible.readfile float_of_text pipe_tell text_readline text_seek 0
                    (open_stream scenario_A)
  = Some (Raise (UnsupportedOperation "underlying stream is not seekable"))
  /\ exists out fp',
      readfile float_of_text (open_stream (unlines ["a b"; "c's"]%string))
      = Some (out, fp')
      /\ (forall e, out = Raise e ->
            e = ValueError "No closing quotation"
            \/ e = ValueError "No escaped character")
      /\ (unread (open_stream (unlines ["a b"; "c's"]%string)) = [] ->
          out = Ok ([], [], []))
      /\ (forall cs cols cmts labels,
            framed cs [] -> Forall (comment_line float_of_text) cs ->
            unread (open_stream (unlines ["a b"; "c's"]%string)) = concat cs ->
            out = Ok (cols, cmts, labels) ->
            cols = [] /\ cmts = map strip cs).
Proof.
  split.
  - apply (proj1 (proj2 (proj1 (@read_raises_only_from_labels
                                  pyfloat float_of_text)
                               stream pipe_tell text_readline text_seek 0
                               (open_stream scenario_A)
                               (UnsupportedOperation
                                  "underlying stream is not seekable")))).
    reflexivity.
  - exact (proj2 (proj2 (@read_raises_only_from_labels pyfloat float_of_text))
                 (open_stream (unlines ["a b"; "c's"]%string))).
Defined.

(** C7. Whatever the input, every column [readfile] returns has as many
    entries as rows were read (rows of unequal width included: [zip] stops
    at the narrowest, and each tuple still takes one entry per row). *)
Theorem columns_as_long_as_rows :
  forall (F : Type) (float : text -> option F) (fp fp' : stream)
         (cols : list (list F)) (cmts labels : list text),
    readfile float fp = Some (Ok (cols, cmts, labels), fp') ->
    exists sc,
      read_lines float fp = Some sc
      /\ Forall (fun col => length col = length (rows sc)) cols.
Proof.
  intros F float fp fp' cols cmts labels H. unfold readfile in H.
  destruct (read_lines float fp) as [sc|]; [|discriminate].
  exists sc. split; [reflexivity|].
  destruct (labels_of (comments sc)); [|discriminate].
  injection H as <- _ _ _. apply columns_of_lengths.
Qed.

Lemma columns_as_long_as_rows_witness :
  exists sc,
    read_lines float_of_text (open_stream scenario_A) = Some sc
    /\ Forall (fun col => length col = length (rows sc))
              [[Finite 1; Finite 3]; [Finite 2; Finite 4]].
Proof.
  apply (@columns_as_long_as_rows
           pyfloat float_of_text (open_stream scenario_A)
           {| contents := scenario_A; pos := 20 |}
           [[Finite 1; Finite 3]; [Finite 2; Finite 4]]
           [T "x y"] [T "x"; T "y"]).
  vm_compute. reflexivity.
Defined.

(** Rows of unequal width: two rows, one column, of two entries. *)
Lemma ragged_rows_columns :
  readfile float_of_text (open_stream (unlines ["1 2"; "3"]%string))
  = Some (Ok ([[Finite 1; Finite 3]], [], []),
          {| contents := unlines ["1 2"; "3"]%string; pos := 6 |}).
Proof. vm_compute. reflexivity. Qed.

(** C2. Let the unread stream be comment lines [cs], then row lines [rs],
    then [tail], the table ending there: at the end of the stream, at a
    blank line, or (after a row) at a line that is not numeric.  Then the
    loop ends having read the rows [vs]; a terminator that is not blank is
    left unread, the stream standing just before it, so that it is the
    next line any reader gets; and in every case the stream has moved at
    most one line, the first of [tail], past the rows. *)
Theorem terminator_left_unread :
  forall (F : Type) (float : text -> option F) (fp : stream)
         (cs rs : list text) (vs : list (list F)) (tail : text),
    framed cs (concat rs ++ tail) -> Forall (comment_line float) cs ->
    framed rs tail -> Forall2 (row_line float) rs vs ->
    unread fp = concat cs ++ concat rs ++ tail ->
    table_end float rs tail ->
    exists sc,
      read_lines float fp = Some sc
      /\ rows sc = vs
      /\ (~ blank_line (first_line tail) ->
          rs <> [] /\ unread (after sc) = tail
          /\ fst (readline (after sc)) = first_line tail)
      /\ pos (after sc)
         <= pos fp + length (concat cs ++ concat rs)
            + length (first_line tail).
Proof.
  intros F float fp cs rs vs tail Hfc Hc Hfr Hv Hu He.
  destruct (read_lines_total float fp) as [sc Hsc].
  destruct (@read_lines_spec F float fp cs rs vs tail sc Hfc Hc Hfr Hv Hu He Hsc)
    as (_ & Hrows & Hcont & Hblank & Hbad).
  exists sc. split; [exact Hsc|]. split; [exact Hrows|]. split.
  - intros Hnb.
    assert (Hun : unread (after sc) = tail).
    { rewrite (@unread_after F sc fp _ Hcont (Hbad Hnb)), Hu, app_assoc.
      rewrite skipn_app, skipn_all, Nat.sub_diag. reflexivity. }
    split.
    + destruct He as [Hb|[_ Hne]]; [contradiction|exact Hne].
    + split; [exact Hun|].
      rewrite <- Hun. apply readline_spec.
  - destruct (blank_dec (first_line tail)) as [Hb|Hb].
    + rewrite (Hblank Hb). lia.
    + rewrite (Hbad Hb). lia.
Qed.

(** Scenario B: the row ["1.0 2.0"] is read and the stream is left at
    ["not a number\n3.0 4.0\n"]. *)
Lemma terminator_left_unread_witness :
  exists sc,
    read_lines float_of_text (open_stream scenario_B) = Some sc
    /\ rows sc = [[Finite 1; Finite 2]]
    /\ (~ blank_line
          (first_line (unlines ["not a number"; "3.0 4.0"]%string)) ->
        [T "1.0 2.0" ++ [nl]] <> []
        /\ unread (after sc) = unlines ["not a number"; "3.0 4.0"]%string
        /\ fst (readline (after sc))
           = first_line (unlines ["not a number"; "3.0 4.0"]%string))
    /\ pos (after sc)
       <= pos (open_stream scenario_B)
          + length (concat (@nil text) ++ concat [T "1.0 2.0" ++ [nl]])
          + length (first_line (unlines ["not a number"; "3.0 4.0"]%string)).
Proof.
  apply (@terminator_left_unread
           pyfloat float_of_text (open_stream scenario_B)
           [] [T "1.0 2.0" ++ [nl]] [[Finite 1; Finite 2]]
           (unlines ["not a number"; "3.0 4.0"]%string)).
  - exact I.
  - constructor.
  - split; [vm_compute; reflexivity|exact I].
  - constructor; [|constructor].
    split; [vm_compute; discriminate|vm_compute; reflexivity].
  - vm_compute. reflexivity.
  - right. split; [vm_compute; reflexivity|discriminate].
Defined.

(** Scenario B, run: one row, and the stream back at position 8. *)
Lemma scenario_B_read :
  readfile float_of_text (open_stream scenario_B)
  = Some (Ok ([[Finite 1]; [Finite 2]], [], []),
          {| contents := scenario_B; pos := 8 |})
  /\ unread {| contents := scenario_B; pos := 8 |}
     = unlines ["not a number"; "3.0 4.0"]%string.
Proof. split; vm_compute; reflexivity. Qed.

(** C10, as stated, fails: on the empty stream the reader returns no
    column, and line 165 then raises the out-of-range [IndexError] of
    [cols[0]]; no check stands before it. *)
Lemma row_count_of_empty_table_faults :
  exists fp',
    readfile float_of_text (open_stream []) = Some (Ok ([], [], []), fp')
    /\ nrows (@nil (list pyfloat))
       = Raise (IndexError "list index out of range")
    /\ exn_class (IndexError "list index out of range") = "IndexError"%string.
Proof. eexists. repeat split. Qed.

(** C10, amended. When no row was read, [readfile] returns no column, and
    the row count of line 165 raises [IndexError: list index out of
    range]. *)
Theorem no_rows_no_columns_index_error :
  forall (F : Type) (float : text -> option F) (fp fp' : stream)
         (sc : scan F) (cols : list (list F)) (cmts labels : list text),
    readfile float fp = Some (Ok (cols, cmts, labels), fp') ->
    read_lines float fp = Some sc -> rows sc = [] ->
    cols = [] /\ nrows cols = Raise (IndexError "list index out of range").
Proof.
  intros F float fp fp' sc cols cmts labels H Hsc Hr.
  unfold readfile in H. rewrite Hsc in H.
  destruct (labels_of (comments sc)); [|discriminate].
  injection H as <- _ _ _. rewrite Hr. now split.
Qed.

Lemma no_rows_no_columns_index_error_witness :
  @nil (list pyfloat) = []
  /\ nrows (@nil (list pyfloat)) = Raise (IndexError "list index out of range").
Proof.
  apply (@no_rows_no_columns_index_error
           pyfloat float_of_text (open_stream (unlines ["only a comment"]%string))
           {| contents := unlines ["only a comment"]%string; pos := 15 |}
           {| comments := [T "only a comment"]; rows := [];
              after := {| contents := unlines ["only a comment"]%string;
                          pos := 15 |} |}
           [] [T "only a comment"] [T "only"; T "a"; T "comment"]).
  - vm_compute. reflexivity.
  - vm_compute. reflexivity.
  - reflexivity.
Defined.

(** ** The row count of line 165 *)

Lemma lstrip_head (s : text) (c : ascii) (r : text) :
  lstrip s = c :: r -> isspace c = false.
Proof.
  induction s as [|a s IH]; simpl; [discriminate|].
  destruct (isspace a) eqn:E; [exact IH|]. now intros [= <- _].
Qed.

Lemma strip_has_word (s : text) :
  strip s <> [] -> exists c, In c (strip s) /\ isspace c = false.
Proof.
  unfold strip, rstrip. intros H.
  destruct (lstrip (rev (lstrip s))) as [|c r] eqn:E; [now elim H|].
  exists c. split; [|exact (lstrip_head _ E)].
  apply in_rev. rewrite rev_involutive. now left.
Qed.

Lemma split_from_nonempty (s : text) :
  forall word,
    word <> [] \/ (exists c, In c s /\ isspace c = false) ->
    split_from s word <> [].
Proof.
  induction s as [|a s IH]; intros word H; simpl.
  - destruct H as [H|(c & [] & _)]. now destruct word.
  - destruct (isspace a) eqn:Ea.
    + destruct word; [|discriminate].
      apply IH. right. destruct H as [H|(c & [<-|Hin] & Hc)];
        [now elim H|congruence|now exists c].
    + apply IH. left. now destruct word.
Qed.

Lemma row_line_nonempty {F : Type} (float : text -> option F) l v :
  row_line float l v -> v <> [].
Proof.
  intros [Hs Hp] ->. unfold parse_row in Hp.
  apply map_try_length in Hp. simpl in Hp.
  apply (@split_from_nonempty (strip l) []);
    [right; now apply strip_has_word|].
  symmetry in Hp. now apply length_zero_iff_nil in Hp.
Qed.

Lemma heads_of_nonempty {A : Type} (rows : list (list A)) :
  Forall (fun r => r <> []) rows ->
  exists heads, map_try (@hd_error A) rows = Some heads.
Proof.
  induction 1 as [|r rows Hr _ [heads IH]]; simpl; [now exists []|].
  destruct r as [|x r]; [now elim Hr|]. simpl. rewrite IH. eauto.
Qed.

(** X7. When a row was read, line 165 gives the number of rows. *)
Lemma nrows_counts_rows {F : Type} (float : text -> option F) fp sc :
  read_lines float fp = Some sc ->
  nrows (columns_of (rows sc))
  = match rows sc with
    | [] => Raise (IndexError "list index out of range")
    | _ :: _ => Ok (length (rows sc))
    end.
Proof.
  intros Hsc.
  destruct (every_stream_read float fp)
    as (cs & rs & vs & tail & sc' & _ & _ & _ & _ & Hv & _ & Hsc' & _ & Hr & _).
  rewrite Hsc in Hsc'. injection Hsc' as <-.
  assert (Hne : Forall (fun r => r <> []) (rows sc)).
  { rewrite Hr. clear -Hv. induction Hv; constructor; [|assumption].
    eapply row_line_nonempty; eassumption. }
  destruct (rows sc) as [|first rest] eqn:E; [reflexivity|].
  pose proof (columns_of_lengths (first :: rest)) as Hlen.
  unfold columns_of in *.
  destruct (heads_of_nonempty Hne) as [heads Hh].
  destruct first as [|x first]; [inversion Hne; congruence|].
  cbn [zip_star] in *. rewrite Hh in *.
  inversion Hlen as [|? ? Hl _]; subst. unfold nrows. now rewrite Hl.
Qed.

(** * The resolver *)

(** ** Dictionaries *)

Lemma text_eqb_eq (a b : text) : text_eqb a b = true <-> a = b.
Proof.
  unfold text_eqb. destruct (list_eq_dec ascii_dec a b); split;
    congruence.
Qed.

Lemma text_eqb_refl (a : text) : text_eqb a a = true.
Proof. now apply text_eqb_eq. Qed.

Lemma text_eqb_neq (a b : text) : a <> b -> text_eqb a b = false.
Proof.
  intros H. destruct (text_eqb a b) eqn:E; [|reflexivity].
  now apply text_eqb_eq in E.
Qed.

Section DictFacts.

Context {V : Type}.
Implicit Types (d : dict V) (k x : text) (v : V).

Lemma dict_get_set_same d k v : dict_get (dict_set d k v) k = Some v.
Proof.
  induction d as [|[k' v'] d IH]; simpl.
  - now rewrite text_eqb_refl.
  - destruct (text_eqb k' k) eqn:E; simpl; rewrite E; [reflexivity|exact IH].
Qed.

Lemma dict_get_set_other d k x v :
  k <> x -> dict_get (dict_set d k v) x = dict_get d x.
Proof.
  intros Hne. induction d as [|[k' v'] d IH]; simpl.
  - now rewrite (text_eqb_neq Hne).
  - destruct (text_eqb k' k) eqn:E; simpl.
    + apply text_eqb_eq in E. subst k'.
      now rewrite (text_eqb_neq Hne).
    + now rewrite IH.
Qed.

Lemma dict_get_del_same d k : dict_get (dict_del d k) k = None.
Proof.
  induction d as [|[k' v'] d IH]; simpl; [reflexivity|].
  destruct (text_eqb k' k) eqn:E; simpl; [exact IH|now rewrite E].
Qed.

Lemma dict_get_del_other d k x :
  k <> x -> dict_get (dict_del d k) x = dict_get d x.
Proof.
  intros Hne. induction d as [|[k' v'] d IH]; simpl; [reflexivity|].
  destruct (text_eqb k' k) eqn:E; simpl.
  - apply text_eqb_eq in E. subst k'. now rewrite (text_eqb_neq Hne).
  - now rewrite IH.
Qed.

Lemma dict_get_In d k v : dict_get d k = Some v -> In k (map fst d).
Proof.
  induction d as [|[k' v'] d IH]; simpl; [discriminate|].
  destruct (text_eqb k' k) eqn:E; [|now right; apply IH].
  apply text_eqb_eq in E. now left.
Qed.

End DictFacts.

(** * The claims about the resolver *)

(** C8. When the expression is a key of the table, [gety] returns the
    column stored under it, the very list and not an array made from it;
    [exec] is not run (the result does not depend on it) and the module's
    names are left as they were.  This holds on every interpreter. *)
Theorem exact_key_returns_column :
  forall (N : Type) (py : version)
         (exec : text -> ns N -> ns N -> exec_result N)
         (a_string : text) (a_dict : table N) (g : ns N) (col : list N),
    dict_get a_dict a_string = Some col ->
    gety py exec a_string a_dict g = (Returns (VList col), g).
Proof.
  intros N py exec a_string a_dict g col H.
  unfold gety, gety2, gety3. rewrite H. now destruct (exec_statement py).
Qed.

(** The round trip of Scenario A: the table built from what [readfile]
    returned, asked for the label [x], gives back the first column. *)
Lemma exact_key_returns_column_witness :
  gety py311 Fragment.exec (T "x")
       (symbol_table [[1; 3]; [2; 4]]%Q [T "x"; T "y"]) module_globals
  = (Returns (VList [1; 3]%Q), module_globals).
Proof.
  apply (@exact_key_returns_column Q py311 Fragment.exec (T "x")
           (symbol_table [[1; 3]; [2; 4]]%Q [T "x"; T "y"])
           module_globals [1; 3]%Q).
  reflexivity.
Defined.

(** The table of Scenario C is the one lines 167-178 build from its two
    columns and no label. *)
Lemma scenario_C_built :
  symbol_table [[1; 2; 3]; [4; 5; 6]]%Q [] = scenario_C.
Proof. reflexivity. Qed.

(** A label that is no identifier is still resolved when asked for by
    name: the first path needs no binding. *)
Lemma quoted_label_resolves :
  fst (resolve py311 (T "my label") [(T "my label", [1; 2]%Q)]
               module_globals)
  = Returns (VList [1; 2]%Q).
Proof. reflexivity. Qed.

(** ** The second path on Python 3 *)

(** On Python 3 the second path does not return: an [exec] that acts on
    the mappings it is given cannot bind the function's variable [y], so
    [return y] finds it unbound, whatever the expression evaluated to. *)
Lemma python3_second_path_never_returns :
  forall (N : Type) (py : version)
         (exec : text -> ns N -> ns N -> exec_result N)
         (a_string : text) (a_dict : table N) (g : ns N) (v : value N),
    exec_statement py = false ->
    dict_get a_dict a_string = None ->
    fst (gety py exec a_string a_dict g) <> Returns v.
Proof.
  intros N py exec a_string a_dict g v Hpy Hmiss.
  unfold gety, gety3. rewrite Hpy, Hmiss.
  destruct (bind3 py exec a_string a_dict a_dict g [] None)
    as [[[g' d] kv]|]; [|discriminate].
  destruct (version_test py (dict_get g' (T "sys"))) as [[[|]|e]|];
    try discriminate.
  - destruct (exec (assignment a_string) g' (locals py a_string a_dict d kv));
      discriminate.
  - destruct (exec (assignment a_string) (locals py a_string a_dict d kv) g');
      discriminate.
Qed.

(** C1. Scenario C on Python 3.11 (the source's own branch for 3.6 and
    later): the columns are bound as arrays and ["column1 - column0"] is
    evaluated elementwise to [[3, 3, 3]], but the value is stored under the
    module's name [y], and [gety] raises [UnboundLocalError] on [return y]
    where the claim has it return the sequence. *)
Theorem scenario_C_lost_on_python3 :
  resolve py311 (T "column1 - column0") scenario_C module_globals
  = (Raises (UnboundLocalError (T "y")),
     dict_set module_globals (T "y") (VArray [3; 3; 3]%Q)).
Proof. vm_compute. reflexivity. Qed.

(** The same on the other interpreters: Python 2 returns the sequence;
    3.5 evaluates it and raises; 3.13 does not even find the columns.
    (The module's mapping differs between interpreters only in names that
    this expression does not read.) *)
Lemma scenario_C_on_python2 :
  resolve py27 (T "column1 - column0") scenario_C module_globals
  = (Returns (VArray [3; 3; 3]%Q), module_globals).
Proof. vm_compute. reflexivity. Qed.

Lemma scenario_C_on_python35 :
  resolve py35 (T "column1 - column0") scenario_C module_globals
  = (Raises (UnboundLocalError (T "y")), module_globals).
Proof. vm_compute. reflexivity. Qed.

Lemma scenario_C_on_python313 :
  resolve py313 (T "column1 - column0") scenario_C module_globals
  = (Raises (NameError (T "column1")), module_globals).
Proof. vm_compute. reflexivity. Qed.


(** C9.  On Python 3.6 and later a resolution is not without state: the
    call for ["column1 - column0"] leaves the array it computed under the
    module's name [y], which was not bound before, and a later resolution
    reads it: the expression ["y"], a [NameError] in the module as it
    was, is found bound after that call.  Line 124, the same statement
    for the older interpreters, writes no name of the module. *)
Theorem resolution_leaves_y_in_the_module :
  dict_get (@module_globals Q) (T "y") = None
  /\ snd (resolve py311 (T "column1 - column0") scenario_C module_globals)
     = dict_set module_globals (T "y") (VArray [3; 3; 3]%Q)
  /\ snd (resolve py27 (T "column1 - column0") scenario_C module_globals)
     = module_globals
  /\ fst (resolve py311 (T "y") scenario_C module_globals)
     = Raises (NameError (T "y"))
  /\ fst (resolve py311 (T "y") scenario_C
                  (snd (resolve py311 (T "column1 - column0") scenario_C
                                module_globals)))
     = Raises (UnboundLocalError (T "y")).
Proof. vm_compute. repeat split. Qed.


(** ** [exec] on the two statements of [gety] *)

Lemma alpha_not_blank (c : ascii) :
  Fragment.is_alpha c = true -> Fragment.is_blank c = false.
Proof.
  destruct c as [[] [] [] [] [] [] [] []]; vm_compute; congruence.
Qed.

Lemma span_app (p : ascii -> bool) (k rest : text) :
  forallb p k = true ->
  match rest with c :: _ => p c = false | [] => True end ->
  Fragment.span p (k ++ rest) = (k, rest).
Proof.
  intros Hk Hr. induction k as [|c k IH]; simpl in *.
  - destruct rest as [|c r]; [reflexivity|]. simpl. now rewrite Hr.
  - apply andb_prop in Hk as [Hc Hk]. now rewrite Hc, (IH Hk).
Qed.

Lemma tokens_of_binding_tail (n : nat) :
  Fragment.tokens (15 + n) (T "= np.array(val)")
  = Some [Fragment.TEq; Fragment.TName (T "np"); Fragment.TDot;
          Fragment.TName (T "array"); Fragment.TLpar;
          Fragment.TName (T "val"); Fragment.TRpar].
Proof. reflexivity. Qed.

(** The statement of line 119, for a key that is an identifier. *)
Lemma lex_binding (k : text) :
  identifier k = true ->
  Fragment.lex (binding k)
  = Some [Fragment.TName k; Fragment.TEq; Fragment.TName (T "np");
          Fragment.TDot; Fragment.TName (T "array"); Fragment.TLpar;
          Fragment.TName (T "val"); Fragment.TRpar].
Proof.
  destruct k as [|c k]; [discriminate|]. unfold identifier.
  intros H. apply andb_prop in H as [H Hkw].
  apply andb_prop in H as [Ha Hall].
  apply negb_true_iff in Hkw.
  unfold Fragment.lex, binding. cbn [app].
  rewrite (alpha_not_blank _ Ha). cbn [Fragment.tokens].
  rewrite (alpha_not_blank _ Ha), Ha.
  change (c :: k ++ T "= np.array(val)")
    with ((c :: k) ++ T "= np.array(val)").
  rewrite (span_app Fragment.is_alnum (c :: k) (T "= np.array(val)") Hall)
    by reflexivity.
  rewrite Hkw, length_app, Nat.add_comm.
  change (length (T "= np.array(val)")) with 15.
  now rewrite tokens_of_binding_tail.
Qed.

Section FragmentExec.

Context {N : Type} {arith : Number N}.

Lemma exec_binding (k : text) (g l : ns N) :
  identifier k = true ->
  Fragment.exec (binding k) g l
  = match Fragment.eval l g binding_expr with
    | Fragment.Value v => Done g (dict_set l k v)
    | Fragment.Error ex => Raised ex g l
    | Fragment.Unknown => Beyond
    end.
Proof.
  intros Hk. unfold Fragment.exec. now rewrite (lex_binding _ Hk).
Qed.

Lemma lex_assignment (s : text) :
  Fragment.lex (assignment s)
  = Fragment.push (Fragment.TName (T "y"))
      (Fragment.push Fragment.TEq (Fragment.tokens (S (length s)) s)).
Proof. reflexivity. Qed.

Lemma exec_assignment (s : text) (g l : ns N) :
  Fragment.exec (assignment s) g l
  = match expression_of s with
    | None =>
        if Fragment.rejected (assignment s)
        then Raised (SyntaxError (assignment s)) g l else Beyond
    | Some e =>
        match Fragment.eval l g e with
        | Fragment.Value v => Done g (dict_set l (T "y") v)
        | Fragment.Error ex => Raised ex g l
        | Fragment.Unknown => Beyond
        end
    end.
Proof.
  unfold Fragment.exec, Fragment.rejected, expression_of.
  rewrite lex_assignment.
  destruct (Fragment.tokens (S (length s)) s) as [ts|]; [|reflexivity].
  cbn [Fragment.push Fragment.parse].
  destruct (Fragment.p_sum (2 * S (length ts)) ts) as [[e [|t r]]|];
    reflexivity.
Qed.

Lemma exec_rejected (code : text) (g l : ns N) :
  Fragment.rejected code = true ->
  Fragment.exec code g l = Raised (SyntaxError code) g l.
Proof.
  unfold Fragment.exec, Fragment.rejected.
  destruct (Fragment.lex code) as [ts|]; [|discriminate].
  destruct (Fragment.parse ts); [discriminate|]. now intros ->.
Qed.

End FragmentExec.

(** ** The binding loop *)

Section EvalFacts.

Context {N : Type} {arith : Number N}.

(** When [np] is the module and [val] a list, the binding makes an
    array. *)
Lemma eval_binding_expr_array (l g : ns N) (xs : list N) :
  dict_get l (T "np") = None ->
  dict_get g (T "np") = Some (VModule (T "numpy")) ->
  dict_get l (T "val") = Some (VList xs) ->
  Fragment.eval l g binding_expr = Fragment.Value (VArray xs).
Proof.
  intros Hl Hg Hv. unfold binding_expr. cbn [Fragment.eval].
  unfold Fragment.lookup. now rewrite Hl, Hg, Hv.
Qed.

End EvalFacts.

Section Passing.

Context {N : Type} {arith : Number N}.

Variable avoid : list text.
Hypothesis avoid_np : In (T "np") avoid.

(** Python 2: the loop binds the identifiers among the keys and passes
    over the keys whose statement is rejected; the module and the names
    to avoid stay as they were. *)
Lemma bind2_passes (items : table N) :
  forall g l,
    passing_keys avoid items ->
    dict_get g (T "np") = Some (VModule (T "numpy")) ->
    dict_get l (T "np") = None ->
    exists l',
      bind2 Fragment.exec items g l = Some (g, l')
      /\ (forall x, In x avoid -> x <> T "key" -> x <> T "val" ->
                    dict_get l' x = dict_get l x).
Proof.
  induction items as [|[k v] items IH]; intros g l Hk Hnp Hl.
  - exists l. split; reflexivity.
  - inversion Hk as [|? ? Hk1 Hks]; subst. cbn [bind2].
    simpl in Hk1. destruct Hk1 as [[Hi Ha]|Hrej].
    + rewrite exec_binding by exact Hi.
      rewrite (@eval_binding_expr_array N arith _ g v);
        [|now rewrite !dict_get_set_other by discriminate
         |exact Hnp|apply dict_get_set_same].
      destruct (IH g (dict_set (dict_set (dict_set l (T "key") (VStr k))
                                         (T "val") (VList v)) k (VArray v))
                   Hks Hnp) as (l' & Hrun & Hkeep).
      { rewrite dict_get_set_other by (intros ->; now apply Ha).
        now rewrite !dict_get_set_other by discriminate. }
      exists l'. split; [exact Hrun|].
      intros x Hx Hx1 Hx2. rewrite (Hkeep x Hx Hx1 Hx2).
      rewrite dict_get_set_other by (intros ->; now apply Ha).
      now rewrite !dict_get_set_other by congruence.
    + rewrite (@exec_rejected N arith _ _ _ Hrej).
      destruct (IH g (dict_set (dict_set l (T "key") (VStr k))
                               (T "val") (VList v)) Hks Hnp)
        as (l' & Hrun & Hkeep).
      { now rewrite !dict_get_set_other by discriminate. }
      exists l'. split; [exact Hrun|].
      intros x Hx Hx1 Hx2. rewrite (Hkeep x Hx Hx1 Hx2).
      now rewrite !dict_get_set_other by congruence.
Qed.

Lemma locals_other py a_string (a_dict : table N) d kv (x : text) :
  x <> T "a_string" -> x <> T "a_dict" -> x <> T "y" -> x <> T "key" ->
  x <> T "val" -> dict_get d x = None ->
  dict_get (locals py a_string a_dict d kv) x = None.
Proof.
  intros H1 H2 H3 H4 H5 Hd. unfold locals, refresh.
  destruct (snapshot_locals py), kv as [[key val]|];
    repeat first [rewrite dict_get_set_other by congruence
                 |rewrite dict_get_del_other by congruence];
    first [exact Hd|reflexivity].
Qed.

Lemma locals_val py a_string (a_dict : table N) d k v :
  dict_get (locals py a_string a_dict d (Some (k, v))) (T "val")
  = Some (VList v).
Proof.
  unfold locals, refresh. destruct (snapshot_locals py);
    apply dict_get_set_same.
Qed.

Lemma locals_clear py a_string (a_dict : table N) d kv :
  clear avoid d -> clear avoid (locals py a_string a_dict d kv).
Proof.
  intros Hd x Hx H1 H2 H3 H4 H5. apply locals_other; try assumption.
  now apply Hd.
Qed.

(** Python 3: the same, in the frame's dictionary. *)
Lemma bind3_passes py a_string a_dict (items : table N) :
  forall g d kv,
    passing_keys avoid items ->
    dict_get g (T "np") = Some (VModule (T "numpy")) ->
    clear avoid d ->
    exists d' kv',
      bind3 py Fragment.exec a_string a_dict items g d kv = Some (g, d', kv')
      /\ clear avoid d'.
Proof.
  induction items as [|[k v] items IH]; intros g d kv Hk Hnp Hd.
  - exists d, kv. now split.
  - inversion Hk as [|? ? Hk1 Hks]; subst. cbn [bind3].
    pose proof (locals_clear py a_string a_dict (Some (k, v)) Hd) as Hl.
    simpl in Hk1. destruct Hk1 as [[Hi Ha]|Hrej].
    + rewrite exec_binding by exact Hi.
      rewrite (@eval_binding_expr_array N arith _ g v);
        [|apply Hl; [exact avoid_np|discriminate..]
         |exact Hnp|apply locals_val].
      apply IH; try assumption.
      intros x Hx H1 H2 H3 H4 H5. rewrite dict_get_set_other.
      * now apply Hl.
      * intros ->. now apply Ha.
    + rewrite (@exec_rejected N arith _ _ _ Hrej). now apply IH.
Qed.

End Passing.

(** ** Scenario E *)

Section ScenarioE.

Context {N : Type} {arith : Number N}.

Lemma expression_E :
  expression_of (T "undefined_name * 2")
  = Some (Fragment.EBin Fragment.Mul
            (Fragment.EName (T "undefined_name")) (Fragment.ENum 2 0)).
Proof. vm_compute. reflexivity. Qed.

Lemma undefined_name_not_builtin :
  Fragment.mem (T "undefined_name") Fragment.builtin_names = false.
Proof. vm_compute. reflexivity. Qed.

(** The statement [y = undefined_name * 2] where the name is unbound. *)
Lemma exec_E (g l : ns N) :
  dict_get l (T "undefined_name") = None ->
  dict_get g (T "undefined_name") = None ->
  Fragment.exec (assignment (T "undefined_name * 2")) g l
  = Raised (NameError (T "undefined_name")) g l.
Proof.
  intros Hl Hg. rewrite exec_assignment, expression_E.
  cbn [Fragment.eval]. unfold Fragment.lookup.
  now rewrite Hl, Hg, undefined_name_not_builtin.
Qed.

End ScenarioE.

Lemma version_test_errors {N : Type} py (o : option (value N)) (e : exn) :
  version_test py o = Some (Raise e) ->
  e = NameError (T "sys") \/ e = AttributeError (T "version_info").
Proof.
  unfold version_test. destruct o as [[]|]; try discriminate;
    try (intros [= <-]; tauto).
  destruct (text_eqb name (T "sys")); discriminate.
Qed.

Lemma python2_is_before_3_6 py :
  exec_statement py = true -> before_3_6 py = true.
Proof. unfold exec_statement, before_3_6. now intros ->. Qed.

(** What the call does once it has missed the key, run the binding loop
    and passed the version test, on a table whose keys pass and in a
    module where [np] and [sys] are the modules: it hands the statement
    ['y = ' + a_string] to [exec]. *)
Section LastStatement.

Context {N : Type} {arith : Number N}.

Variable avoid : list text.
Hypothesis avoid_np : In (T "np") avoid.
Hypothesis avoid_sys : In (T "sys") avoid.
Hypothesis avoid_a_string : In (T "a_string") avoid.

Lemma gety_last_statement py a_string (a_dict : table N) (g : ns N) :
  passing_keys avoid a_dict ->
  dict_get a_dict a_string = None ->
  dict_get g (T "np") = Some (VModule (T "numpy")) ->
  dict_get g (T "sys") = Some (VModule (T "sys")) ->
  exists fr,
    clear avoid fr
    /\ forall e m,
         (if exec_statement py || before_3_6 py
          then Fragment.exec (assignment a_string) g fr = Raised e g m
          else Fragment.exec (assignment a_string) fr g = Raised e m g) ->
         gety py Fragment.exec a_string a_dict g = (Raises e, g).
Proof.
  intros Hk Hmiss Hnp Hsys. unfold gety.
  destruct (exec_statement py) eqn:Hpy.
  - unfold gety2. rewrite Hmiss.
    destruct (@bind2_passes N arith avoid avoid_np a_dict g
                [(T "a_string", VStr a_string); (T "a_dict", VDict a_dict)]
                Hk Hnp eq_refl) as (l' & -> & Hkeep).
    exists l'. split.
    + intros x Hx H1 H2 H3 H4 H5. rewrite (Hkeep x Hx H4 H5).
      cbn [dict_get].
      destruct (text_eqb (T "a_string") x) eqn:E1;
        [apply text_eqb_eq in E1; congruence|].
      destruct (text_eqb (T "a_dict") x) eqn:E2;
        [apply text_eqb_eq in E2; congruence|reflexivity].
    + intros e m Hex. cbn [orb] in Hex. unfold load_name.
      rewrite (Hkeep _ avoid_sys), (Hkeep _ avoid_a_string)
        by discriminate.
      simpl dict_get at 1. rewrite Hsys. cbn [version_test].
      rewrite text_eqb_refl, (python2_is_before_3_6 _ Hpy).
      simpl dict_get at 1. cbv beta iota. now rewrite Hex.
  - unfold gety3. rewrite Hmiss.
    destruct (@bind3_passes N arith avoid avoid_np py a_string a_dict a_dict
                g [] None Hk Hnp) as (d & kv & -> & Hd).
    { intros x _ _ _ _ _ _. reflexivity. }
    exists (locals py a_string a_dict d kv). split.
    + now apply locals_clear.
    + intros e m Hex. cbn [orb] in Hex. rewrite Hsys. cbn [version_test].
      rewrite text_eqb_refl. destruct (before_3_6 py); now rewrite Hex.
Qed.

End LastStatement.




(* ================================================================== *)
(** * Further properties *)

(** ** Rows into columns (line 96) *)

Lemma min_fold_zero {A : Type} (rows : list (list A)) :
  fold_right (fun r m => Nat.min (length r) m) 0 rows = 0.
Proof. induction rows as [|r rows IH]; simpl; [reflexivity|]. rewrite IH. lia. Qed.

Lemma heads_none_min {A : Type} (rows : list (list A)) (n : nat) :
  map_try (@hd_error A) rows = None ->
  fold_right (fun r m => Nat.min (length r) m) n rows = 0.
Proof.
  induction rows as [|r rows IH]; simpl; [discriminate|].
  destruct r as [|x r]; simpl; [reflexivity|].
  destruct (map_try (@hd_error A) rows); [discriminate|].
  intros _. rewrite IH by reflexivity. lia.
Qed.

Lemma heads_some_min {A : Type} (rows : list (list A)) (n : nat) :
  forall heads,
    map_try (@hd_error A) rows = Some heads ->
    fold_right (fun r m => Nat.min (length r) m) (S n) rows
    = S (fold_right (fun r m => Nat.min (length r) m) n (map (@tl A) rows)).
Proof.
  induction rows as [|r rows IH]; simpl; intros heads H; [reflexivity|].
  destruct r as [|x r]; [discriminate|]. simpl in H.
  destruct (map_try (@hd_error A) rows) as [hs|]; [|discriminate].
  simpl. now rewrite (IH hs).
Qed.

Lemma zip_star_count {A : Type} (first : list A) :
  forall rows,
    length (zip_star first rows)
    = fold_right (fun r m => Nat.min (length r) m) (length first) rows.
Proof.
  induction first as [|x first IH]; intros rows; simpl.
  - now rewrite min_fold_zero.
  - destruct (map_try (@hd_error A) rows) as [heads|] eqn:E.
    + simpl. now rewrite IH, (heads_some_min _ _ E).
    + now rewrite heads_none_min.
Qed.

Lemma columns_of_count {A : Type} (rows : list (list A)) :
  length (columns_of rows) = narrowest rows.
Proof. destruct rows as [|first rows]; [reflexivity|]. apply zip_star_count. Qed.

(** X1. The number of columns is the width of the narrowest row: what a
    wider row holds beyond it is dropped without a word. *)
Theorem columns_count_is_narrowest_row :
  forall (A : Type) (rows : list (list A)),
    length (columns_of rows) = narrowest rows.
Proof. intros A rows. apply columns_of_count. Qed.

Lemma heads_nth {A : Type} (rows : list (list A)) :
  forall heads i d,
    map_try (@hd_error A) rows = Some heads -> i < length rows ->
    nth i heads d = nth 0 (nth i rows []) d.
Proof.
  induction rows as [|r rows IH]; simpl; intros heads i d H Hi; [lia|].
  destruct r as [|x r]; [discriminate|]. simpl in H.
  destruct (map_try (@hd_error A) rows) as [hs|] eqn:E; [|discriminate].
  injection H as <-. destruct i as [|i]; [reflexivity|].
  simpl. apply IH; [reflexivity|lia].
Qed.

Lemma tl_nth {A : Type} (rows : list (list A)) (i : nat) :
  nth i (map (@tl A) rows) [] = tl (nth i rows []).
Proof.
  revert i. induction rows as [|r rows IH]; intros [|i]; simpl; auto.
Qed.

Lemma zip_star_entry {A : Type} (first : list A) :
  forall rows i j d,
    j < length (zip_star first rows) -> i < length rows ->
    nth i (nth j (zip_star first rows) []) d = nth j (nth i rows []) d.
Proof.
  induction first as [|x first IH]; intros rows i j d Hj Hi; simpl in *;
    [lia|].
  destruct (map_try (@hd_error A) rows) as [heads|] eqn:E; simpl in Hj;
    [|lia].
  destruct j as [|j]; simpl.
  - now apply heads_nth.
  - rewrite IH; [|lia|now rewrite length_map].
    rewrite tl_nth. destruct (nth i rows []); [now destruct j|reflexivity].
Qed.

Lemma columns_of_entry {A : Type} (rows : list (list A)) (i j : nat) (d : A) :
  j < length (columns_of rows) -> i < length rows ->
  nth i (nth j (columns_of rows) []) d = nth j (nth i rows []) d.
Proof.
  destruct rows as [|first rows]; intros Hj Hi; [simpl in Hi; lia|].
  now apply zip_star_entry.
Qed.

(** X2. Entry [i] of column [j] is number [j] of row [i]. *)
Theorem column_entry_is_row_token :
  forall (A : Type) (rows : list (list A)) (i j : nat) (d : A),
    j < length (columns_of rows) -> i < length rows ->
    nth i (nth j (columns_of rows) []) d = nth j (nth i rows []) d.
Proof. intros A rows i j d. apply columns_of_entry. Qed.

Lemma column_entry_is_row_token_witness :
  nth 1 (nth 0 (columns_of [[1; 2]; [3; 4]; [5; 6]]) []) 0
  = nth 0 (nth 1 [[1; 2]; [3; 4]; [5; 6]] []) 0.
Proof.
  apply (@column_entry_is_row_token nat [[1; 2]; [3; 4]; [5; 6]] 1 0 0);
    simpl; lia.
Defined.

Lemma min_fold_uniform {A : Type} (rows : list (list A)) (w : nat) :
  Forall (fun r => length r = w) rows ->
  fold_right (fun r m => Nat.min (length r) m) w rows = w.
Proof.
  induction 1 as [|r rows Hr _ IH]; simpl; [reflexivity|].
  rewrite IH, Hr. apply Nat.min_id.
Qed.

Lemma narrowest_uniform {A : Type} (rows : list (list A)) (w : nat) :
  rows <> [] -> Forall (fun r => length r = w) rows -> narrowest rows = w.
Proof.
  destruct rows as [|first rows]; [congruence|]. intros _ H.
  unfold narrowest. inversion H as [|? ? Hf _]; subst.
  now apply min_fold_uniform.
Qed.

Lemma Forall_nth_length {A : Type} (ls : list (list A)) (n i : nat) :
  Forall (fun l => length l = n) ls -> i < length ls ->
  length (nth i ls []) = n.
Proof.
  intros H Hi. apply (proj1 (Forall_forall _ _) H). now apply nth_In.
Qed.

(** X3. Rows of one width [w > 0], made into columns and those into rows
    again, are the rows one started from. *)
Theorem columns_of_columns :
  forall (A : Type) (rows : list (list A)) (w : nat),
    rows <> [] -> 0 < w -> Forall (fun r => length r = w) rows ->
    columns_of (columns_of rows) = rows.
Proof.
  intros A rows w Hne Hw Hall.
  pose proof (columns_of_count rows) as Hc.
  rewrite (narrowest_uniform Hne Hall) in Hc.
  pose proof (columns_of_lengths rows) as Hcl.
  assert (Hcne : columns_of rows <> [])
    by (intros E; rewrite E in Hc; simpl in Hc; lia).
  pose proof (columns_of_count (columns_of rows)) as Hcc.
  rewrite (narrowest_uniform Hcne Hcl) in Hcc.
  pose proof (columns_of_lengths (columns_of rows)) as Hccl.
  rewrite Hc in Hccl.
  assert (d : A).
  { destruct rows as [|[|x r] rows]; [congruence| |exact x].
    exfalso. inversion Hall; subst. simpl in Hw. lia. }
  apply (nth_ext _ _ [] [] Hcc). intros i Hi. rewrite Hcc in Hi.
  assert (L1 : length (nth i (columns_of (columns_of rows)) []) = w)
    by (apply Forall_nth_length; [exact Hccl|lia]).
  assert (L2 : length (nth i rows []) = w)
    by (now apply Forall_nth_length).
  apply (nth_ext _ _ d d); [lia|]. intros j Hj. rewrite L1 in Hj.
  rewrite columns_of_entry by lia.
  apply columns_of_entry; lia.
Qed.

Lemma columns_of_columns_witness :
  columns_of (columns_of [[1; 2]; [3; 4]; [5; 6]]) = [[1; 2]; [3; 4]; [5; 6]].
Proof.
  apply (@columns_of_columns nat [[1; 2]; [3; 4]; [5; 6]] 2).
  - discriminate.
  - lia.
  - repeat constructor.
Defined.

(** ** What [readfile] returns (lines 62-105) *)

(** X4. On a stream of comment lines [cs], row lines [rs] and the end of the
    table, [readfile] returns the numbers of the rows, made into columns,
    the comment lines stripped, and the tokens of the last of them; what
    follows the end of the table adds nothing. *)
Theorem readfile_of_framed_stream :
  forall (F : Type) (float : text -> option F) (fp : stream)
         (cs rs : list text) (vs : list (list F)) (tail : text)
         (labels : list text),
    framed cs (concat rs ++ tail) -> Forall (comment_line float) cs ->
    framed rs tail -> Forall2 (row_line float) rs vs ->
    unread fp = concat cs ++ concat rs ++ tail ->
    table_end float rs tail ->
    labels_of (map strip cs) = Ok labels ->
    exists fp',
      readfile float fp = Some (Ok (columns_of vs, map strip cs, labels), fp')
      /\ contents fp' = contents fp.
Proof.
  intros F float fp cs rs vs tail labels Hfc Hc Hfr Hv Hu He Hl.
  destruct (read_lines_total float fp) as [sc Hsc].
  destruct (@read_lines_spec F float fp cs rs vs tail sc Hfc Hc Hfr Hv Hu He
              Hsc) as (H1 & H2 & H3 & _).
  exists (after sc). unfold readfile. rewrite Hsc, H1, H2, Hl. now split.
Qed.

Lemma readfile_of_framed_stream_witness :
  exists fp',
    readfile float_of_text
             (open_stream (unlines ["# t v"; "1 2"; "3 4"; ""; "5 6"]%string))
    = Some (Ok (columns_of [[Finite 1; Finite 2]; [Finite 3; Finite 4]],
                map strip [T "# t v" ++ [nl]], [T "t"; T "v"]), fp')
    /\ contents fp'
       = contents
           (open_stream (unlines ["# t v"; "1 2"; "3 4"; ""; "5 6"]%string)).
Proof.
  apply (@readfile_of_framed_stream
           pyfloat float_of_text
           (open_stream (unlines ["# t v"; "1 2"; "3 4"; ""; "5 6"]%string))
           [T "# t v" ++ [nl]] [T "1 2" ++ [nl]; T "3 4" ++ [nl]]
           [[Finite 1; Finite 2]; [Finite 3; Finite 4]]
           (unlines [""; "5 6"]%string) [T "t"; T "v"]).
  - split; [vm_compute; reflexivity|exact I].
  - constructor; [|constructor].
    split; [vm_compute; discriminate|vm_compute; reflexivity].
  - split; [vm_compute; reflexivity|].
    split; [vm_compute; reflexivity|exact I].
  - constructor; [|constructor; [|constructor]];
      (split; [vm_compute; discriminate|vm_compute; reflexivity]).
  - vm_compute. reflexivity.
  - left. vm_compute. reflexivity.
  - vm_compute. reflexivity.
Defined.

(** X5. A blank first line ends the reading at once: nothing is returned,
    whatever follows, and that one line is consumed. *)
Theorem blank_first_line_reads_nothing :
  forall (F : Type) (float : text -> option F) (fp : stream),
    blank_line (first_line (unread fp)) ->
    readfile float fp
    = Some (Ok ([], [], []),
            {| contents := contents fp;
               pos := pos fp + length (first_line (unread fp)) |}).
Proof.
  intros F float fp Hb. unfold readfile, read_lines, readline.
  now rewrite (loop_blank float _ _ _ _ _ Hb).
Qed.

Lemma blank_first_line_reads_nothing_witness :
  readfile float_of_text (open_stream (unlines [" "; "1 2"]%string))
  = Some (Ok ([], [], []),
          {| contents := contents (open_stream (unlines [" "; "1 2"]%string));
             pos := pos (open_stream (unlines [" "; "1 2"]%string))
                    + length (first_line
                                (unread (open_stream
                                           (unlines [" "; "1 2"]%string)))) |}).
Proof.
  apply (@blank_first_line_reads_nothing
           pyfloat float_of_text (open_stream (unlines [" "; "1 2"]%string))).
  vm_compute. reflexivity.
Defined.

Lemma read_loop_keeps_comments {F : Type} (float : text -> option F)
      (fuel : nat) :
  forall cmts rws npos l fp sc,
    read_loop float fuel cmts rws npos l fp = Some sc ->
    exists more, comments sc = cmts ++ more.
Proof.
  induction fuel as [|fuel IH]; intros cmts rws npos l fp sc H;
    [discriminate|].
  cbn [read_loop] in H.
  destruct l as [|c l]; [injection H as <-; exists []; simpl; now rewrite app_nil_r|].
  destruct (strip (c :: l)) as [|c' l'];
    [injection H as <-; exists []; simpl; now rewrite app_nil_r|].
  destruct (readline fp) as [l2 fp2].
  destruct (parse_row float (c' :: l')).
  - exact (IH _ _ _ _ _ _ H).
  - destruct rws.
    + destruct (IH _ _ _ _ _ _ H) as [more Hm].
      exists ((c' :: l') :: more). now rewrite Hm, <- app_assoc.
    + injection H as <-. exists []. simpl. now rewrite app_nil_r.
Qed.

(** X6. Read again from where a first reading stopped before a terminator,
    the stream gives that terminator as the first comment of the second
    reading. *)
Theorem second_read_starts_with_terminator :
  forall (F : Type) (float : text -> option F) (fp : stream)
         (cs rs : list text) (vs : list (list F)) (tail : text),
    framed cs (concat rs ++ tail) -> Forall (comment_line float) cs ->
    framed rs tail -> Forall2 (row_line float) rs vs ->
    unread fp = concat cs ++ concat rs ++ tail ->
    table_end float rs tail ->
    ~ blank_line (first_line tail) ->
    exists sc sc2 more,
      read_lines float fp = Some sc
      /\ read_lines float (after sc) = Some sc2
      /\ comments sc2 = strip (first_line tail) :: more.
Proof.
  intros F float fp cs rs vs tail Hfc Hc Hfr Hv Hu He Hnb.
  destruct (read_lines_total float fp) as [sc Hsc].
  destruct (@read_lines_spec F float fp cs rs vs tail sc Hfc Hc Hfr Hv Hu He
              Hsc) as (_ & _ & Hcont & _ & Hbad).
  assert (Hun : unread (after sc) = tail).
  { rewrite (@unread_after F sc fp _ Hcont (Hbad Hnb)), Hu, app_assoc.
    rewrite skipn_app, skipn_all, Nat.sub_diag. reflexivity. }
  destruct (read_lines_total float (after sc)) as [sc2 Hsc2].
  exists sc, sc2.
  assert (Hcl : comment_line float (first_line tail)).
  { split; [exact Hnb|]. destruct He as [Hb|[Hp _]]; [contradiction|exact Hp]. }
  pose proof Hsc2 as Hrun. unfold read_lines, readline in Hrun.
  rewrite Hun in Hrun.
  rewrite (loop_comment _ _ _ _ Hcl) in Hrun.
  destruct (@read_loop_keeps_comments F float _ _ _ _ _ _ _ Hrun)
    as [more Hm].
  exists more. now repeat split.
Qed.

Lemma second_read_starts_with_terminator_witness :
  exists sc sc2 more,
    read_lines float_of_text (open_stream scenario_B) = Some sc
    /\ read_lines float_of_text (after sc) = Some sc2
    /\ comments sc2
       = strip (first_line (unlines ["not a number"; "3.0 4.0"]%string))
         :: more.
Proof.
  apply (@second_read_starts_with_terminator
           pyfloat float_of_text (open_stream scenario_B)
           [] [T "1.0 2.0" ++ [nl]] [[Finite 1; Finite 2]]
           (unlines ["not a number"; "3.0 4.0"]%string)).
  - exact I.
  - constructor.
  - split; [vm_compute; reflexivity|exact I].
  - constructor; [|constructor].
    split; [vm_compute; discriminate|vm_compute; reflexivity].
  - vm_compute. reflexivity.
  - right. split; [vm_compute; reflexivity|discriminate].
  - vm_compute. discriminate.
Defined.

Lemma nrows_counts_rows_witness :
  nrows (columns_of (rows {| comments := [T "x y"];
                             rows := [[Finite 1; Finite 2];
                                      [Finite 3; Finite 4]];
                             after := {| contents := scenario_A;
                                         pos := 20 |} |}))
  = Ok 2.
Proof.
  apply (@nrows_counts_rows
           pyfloat float_of_text (open_stream scenario_A)
           {| comments := [T "x y"];
              rows := [[Finite 1; Finite 2]; [Finite 3; Finite 4]];
              after := {| contents := scenario_A; pos := 20 |} |}).
  vm_compute. reflexivity.
Defined.


(** ** The labels of a comment of plain words (lines 99-103) *)

Lemma plain_char_facts (c : ascii) :
  plain_char c = true ->
  isspace c = false /\ Shlex.whitespace c = false
  /\ Shlex.quotes c = false /\ Shlex.escape c = false.
Proof.
  destruct c as [[] [] [] [] [] [] [] []]; vm_compute; intros H;
    first [discriminate H|repeat split].
Qed.

Lemma lex_word (w : text) :
  forall rest es tok q acc,
    forallb plain_char w = true ->
    Shlex.lex (w ++ rest) Shlex.Word es tok q acc
    = Shlex.lex rest Shlex.Word es (tok ++ w) q acc.
Proof.
  induction w as [|c w IH]; intros rest es tok q acc H; simpl in *.
  - now rewrite app_nil_r.
  - apply andb_prop in H as [Hc Hw].
    destruct (plain_char_facts _ Hc) as (_ & H1 & H2 & H3).
    rewrite H1, H2, H3, (IH _ _ _ _ _ Hw), <- app_assoc. reflexivity.
Qed.

Lemma lex_first_word (w rest : text) es tok q acc :
  plain_word w = true ->
  Shlex.lex (w ++ rest) Shlex.Blank es tok q acc
  = Shlex.lex rest Shlex.Word es w q acc.
Proof.
  destruct w as [|c w]; [discriminate|]. unfold plain_word. intros H.
  pose proof H as H'. simpl in H'. apply andb_prop in H' as [Hc Hw].
  destruct (plain_char_facts _ Hc) as (_ & H1 & H2 & H3).
  simpl. rewrite H1, H2, H3. now rewrite (lex_word _ _ _ _ _ _ Hw).
Qed.

Lemma lex_words (ws : list text) :
  forall acc,
    Forall (fun w => plain_word w = true) ws ->
    Shlex.lex (join_words ws) Shlex.Blank Shlex.Blank [] false acc
    = Ok (acc ++ ws).
Proof.
  induction ws as [|w ws IH]; intros acc H.
  - simpl. now rewrite app_nil_r.
  - inversion H as [|? ? Hw Hws]; subst.
    destruct ws as [|w2 ws].
    + simpl. rewrite <- (app_nil_r w) at 1.
      rewrite (lex_first_word _ _ _ _ _ _ Hw). simpl.
      now destruct w.
    + change (join_words (w :: w2 :: ws))
        with (w ++ ascii_of_nat 32 :: join_words (w2 :: ws)).
      rewrite (lex_first_word _ _ _ _ _ _ Hw).
      cbn [Shlex.lex]. change (Shlex.whitespace (ascii_of_nat 32)) with true.
      cbv iota. rewrite (IH _ Hws).
      destruct w; [discriminate|]. simpl. now rewrite <- app_assoc.
Qed.

Lemma join_words_head (ws : list text) :
  Forall (fun w => plain_word w = true) ws ->
  lstrip (join_words ws) = join_words ws.
Proof.
  intros H. destruct ws as [|w ws]; [reflexivity|].
  inversion H as [|? ? Hw _]; subst.
  destruct w as [|c w]; [discriminate|].
  unfold plain_word in Hw. simpl in Hw. apply andb_prop in Hw as [Hc _].
  destruct (plain_char_facts _ Hc) as (Hs & _).
  destruct ws; simpl; now rewrite Hs.
Qed.

Lemma join_words_last (ws : list text) :
  ws <> [] -> Forall (fun w => plain_word w = true) ws ->
  exists s c, join_words ws = s ++ [c] /\ isspace c = false.
Proof.
  induction ws as [|w ws IH]; intros Hne H; [congruence|].
  inversion H as [|? ? Hw Hws]; subst. destruct ws as [|w2 ws].
  - destruct w as [|c0 w0]; [discriminate|].
    destruct (@exists_last _ (c0 :: w0)) as (s & c & E); [discriminate|].
    exists s, c. split; [exact E|].
    unfold plain_word in Hw. rewrite E, forallb_app in Hw.
    apply andb_prop in Hw as [_ Hc]. simpl in Hc.
    apply andb_prop in Hc as [Hc _]. now apply plain_char_facts in Hc.
  - destruct IH as (s & c & E & Hc); [discriminate|exact Hws|].
    exists (w ++ ascii_of_nat 32 :: s), c. split; [|exact Hc].
    change (join_words (w :: w2 :: ws))
      with (w ++ ascii_of_nat 32 :: join_words (w2 :: ws)).
    now rewrite E, <- app_assoc.
Qed.

Lemma strip_join_words (ws : list text) :
  Forall (fun w => plain_word w = true) ws ->
  strip (join_words ws) = join_words ws.
Proof.
  intros H. unfold strip. rewrite (join_words_head H). unfold rstrip.
  destruct ws as [|w ws]; [reflexivity|].
  destruct (@join_words_last (w :: ws)) as (s & c & -> & Hc);
    [discriminate|exact H|].
  rewrite rev_app_distr. simpl. rewrite Hc. simpl.
  now rewrite rev_involutive.
Qed.

Lemma labels_of_last (cmts : list text) (s : text) :
  labels_of (cmts ++ [s])
  = Shlex.split
      (let s1 := if startswith s (T "#") then strip (tl s) else s in
       if startswith s1 (T "labels") then strip (tl s1) else s1).
Proof.
  unfold labels_of. rewrite last_last.
  destruct (cmts ++ [s]) eqn:E; [|reflexivity].
  now destruct cmts.
Qed.

(** X8. A last comment of plain words, with or without the marker [# ] in
    front, gives exactly those words as labels, provided they do not begin
    with the letters [labels]. *)
Theorem plain_words_are_the_labels :
  forall (cmts : list text) (ws : list text),
    Forall (fun w => plain_word w = true) ws ->
    startswith (join_words ws) (T "labels") = false ->
    labels_of (cmts ++ [T "# " ++ join_words ws]) = Ok ws
    /\ (startswith (join_words ws) (T "#") = false ->
        labels_of (cmts ++ [join_words ws]) = Ok ws).
Proof.
  intros cmts ws Hw Hl. split.
  - rewrite labels_of_last.
    change (startswith (T "# " ++ join_words ws) (T "#")) with true.
    cbv iota zeta.
    change (tl (T "# " ++ join_words ws))
      with (ascii_of_nat 32 :: join_words ws).
    assert (Hs : strip (ascii_of_nat 32 :: join_words ws) = join_words ws)
      by (unfold strip; simpl; apply (strip_join_words Hw)).
    rewrite Hs, Hl. apply (@lex_words ws [] Hw).
  - intros Hh. rewrite labels_of_last, Hh. cbv zeta. rewrite Hl.
    apply (@lex_words ws [] Hw).
Qed.

Lemma plain_words_are_the_labels_witness :
  labels_of ([T "This is my data"] ++ [T "# " ++ join_words [T "a"; T "b"; T "c"]])
  = Ok [T "a"; T "b"; T "c"]
  /\ (startswith (join_words [T "a"; T "b"; T "c"]) (T "#") = false ->
      labels_of ([T "This is my data"] ++ [join_words [T "a"; T "b"; T "c"]])
      = Ok [T "a"; T "b"; T "c"]).
Proof.
  apply (@plain_words_are_the_labels
           [T "This is my data"] [T "a"; T "b"; T "c"]).
  - repeat constructor.
  - reflexivity.
Defined.

(** A quoted label is one label, blanks and all. *)
Lemma lex_quoted (body : text) :
  forall rest es tok acc q,
    ~ In Shlex.squote body ->
    Shlex.lex (body ++ Shlex.squote :: rest) (Shlex.Quote Shlex.squote)
              es tok q acc
    = Shlex.lex rest Shlex.Word es (tok ++ body) true acc.
Proof.
  induction body as [|c body IH]; intros rest es tok acc q Hn.
  - simpl. now rewrite app_nil_r.
  - cbn [app Shlex.lex].
    destruct (Ascii.eqb_spec c Shlex.squote) as [->|Hc];
      [exfalso; apply Hn; now left|].
    change (Shlex.escapedquotes Shlex.squote) with false.
    rewrite andb_false_r, IH by (intros H; apply Hn; now right).
    now rewrite <- app_assoc.
Qed.

(** X9. A last comment that is one string between single quotes gives that
    string, whatever it holds but a single quote, as the only label. *)
Theorem quoted_comment_is_one_label :
  forall (cmts : list text) (body : text),
    ~ In Shlex.squote body ->
    labels_of (cmts ++ [Shlex.squote :: body ++ [Shlex.squote]]) = Ok [body].
Proof.
  intros cmts body Hn. rewrite labels_of_last.
  change (startswith (Shlex.squote :: body ++ [Shlex.squote]) (T "#"))
    with false.
  cbv iota zeta.
  change (startswith (Shlex.squote :: body ++ [Shlex.squote]) (T "labels"))
    with false.
  cbv iota. unfold Shlex.split. cbn [Shlex.lex].
  change (Shlex.whitespace Shlex.squote) with false.
  change (Shlex.escape Shlex.squote) with false.
  change (Shlex.quotes Shlex.squote) with true. cbv iota.
  rewrite (@lex_quoted body [] _ _ _ _ Hn). simpl. now destruct body.
Qed.

Lemma quoted_comment_is_one_label_witness :
  labels_of ([] ++ [Shlex.squote :: T "signal (mV)" ++ [Shlex.squote]])
  = Ok [T "signal (mV)"].
Proof.
  apply (@quoted_comment_is_one_label [] (T "signal (mV)")).
  vm_compute. intros H.
  repeat (destruct H as [H|H]; [discriminate H|]). exact H.
Defined.


(** ** The Symbol Table (lines 167-178) *)

Lemma column_name_inj (n m : nat) : column_name n = column_name m -> n = m.
Proof.
  unfold column_name. intros H. apply app_inv_head in H.
  apply (f_equal string_of_list_ascii) in H. unfold T in H.
  rewrite !string_of_list_ascii_of_string in H.
  apply (f_equal NilZero.uint_of_string) in H.
  assert (Hnn : forall k, Nat.to_uint k <> Decimal.Nil).
  { intros k E. pose proof (DecimalNat.Unsigned.to_of (Nat.to_uint k)) as Ht.
    rewrite DecimalNat.Unsigned.of_to, E in Ht.
    now apply (DecimalFacts.unorm_nonnil Decimal.Nil). }
  rewrite !NilZero.usu in H by apply Hnn.
  injection H as H. now apply DecimalNat.Unsigned.to_uint_inj.
Qed.

Section TableFacts.

Context {V : Type}.
Implicit Types (d : dict V) (k : text) (kvs : list (text * V)).

Lemma dict_get_app d1 d2 k :
  dict_get (d1 ++ d2) k
  = match dict_get d1 k with Some v => Some v | None => dict_get d2 k end.
Proof.
  induction d1 as [|[k' v'] d1 IH]; simpl; [reflexivity|].
  now destruct (text_eqb k' k).
Qed.

Lemma dict_get_notin d k : ~ In k (map fst d) -> dict_get d k = None.
Proof.
  intros H. destruct (dict_get d k) eqn:E; [|reflexivity].
  now apply dict_get_In in E.
Qed.

Lemma fold_put_get kvs :
  forall d0 k,
    dict_get (fold_left put kvs d0) k
    = match dict_get (rev kvs) k with
      | Some v => Some v
      | None => dict_get d0 k
      end.
Proof.
  induction kvs as [|[k1 v1] kvs IH]; intros d0 k; simpl; [reflexivity|].
  rewrite IH, dict_get_app. destruct (dict_get (rev kvs) k); [reflexivity|].
  simpl. unfold put. simpl.
  destruct (text_eqb k1 k) eqn:E.
  - apply text_eqb_eq in E. subst k1. apply dict_get_set_same.
  - apply dict_get_set_other. intros ->. now rewrite text_eqb_refl in E.
Qed.

Lemma fold_enumerate (cols : list V) :
  forall s d0,
    fold_left (fun d nc => dict_set d (column_name (fst nc)) (snd nc))
              (enumerate s cols) d0
    = fold_left put
        (map (fun nc => (column_name (fst nc), snd nc)) (enumerate s cols)) d0.
Proof.
  induction cols as [|c cols IH]; intros s d0; simpl; [reflexivity|].
  now rewrite IH.
Qed.

Lemma symbol_table_folds (cols : list V) (labels : list text) :
  symbol_table cols labels
  = fold_left put (combine labels cols) (fold_left put (positional cols) []).
Proof.
  unfold symbol_table, positional. rewrite fold_enumerate.
  now destruct labels.
Qed.

(** The table read at a key: the last label bound with that name, or else
    the positional entry. *)
Lemma symbol_table_get (cols : list V) (labels : list text) k :
  dict_get (symbol_table cols labels) k
  = match dict_get (rev (combine labels cols)) k with
    | Some c => Some c
    | None => dict_get (rev (positional cols)) k
    end.
Proof.
  rewrite symbol_table_folds, !fold_put_get.
  destruct (dict_get (rev (combine labels cols)) k); [reflexivity|].
  now destruct (dict_get (rev (positional cols)) k).
Qed.

Lemma combine_keys (labels : list text) :
  forall cols : list V,
    map fst (combine labels cols) = firstn (length cols) labels.
Proof.
  induction labels as [|l labels IH]; intros [|c cols]; simpl;
    try reflexivity. now rewrite IH.
Qed.

Lemma enumerate_keys (cols : list V) :
  forall s, map fst (enumerate s cols) = seq s (length cols).
Proof.
  induction cols as [|c cols IH]; intros s; simpl; [reflexivity|].
  now rewrite IH.
Qed.

Lemma positional_keys (cols : list V) :
  map fst (positional cols) = map column_name (seq 0 (length cols)).
Proof.
  unfold positional. rewrite map_map. simpl.
  rewrite <- (enumerate_keys cols 0), map_map. reflexivity.
Qed.

Lemma positional_nodup (cols : list V) : NoDup (map fst (positional cols)).
Proof.
  rewrite positional_keys.
  apply Finite.Injective_map_NoDup; [|apply seq_NoDup].
  intros n m. apply column_name_inj.
Qed.

Lemma dict_get_nodup d k v :
  NoDup (map fst d) -> In (k, v) d -> dict_get d k = Some v.
Proof.
  induction d as [|[k' v'] d IH]; simpl; intros Hnd Hin; [contradiction|].
  inversion Hnd as [|? ? Hn Hnd']; subst.
  destruct Hin as [[= -> ->]|Hin]; [now rewrite text_eqb_refl|].
  destruct (text_eqb k' k) eqn:E; [|now apply IH].
  apply text_eqb_eq in E. subst k'. exfalso. apply Hn.
  apply in_map_iff. now exists (k, v).
Qed.

Lemma enumerate_nth (cols : list V) :
  forall s n c, nth_error cols n = Some c -> In (s + n, c) (enumerate s cols).
Proof.
  induction cols as [|c0 cols IH]; intros s [|n] c H; simpl in *;
    try discriminate.
  - injection H as <-. left. f_equal. lia.
  - right. replace (s + S n) with (S s + n) by lia. now apply IH.
Qed.

Lemma positional_get (cols : list V) (n : nat) (c : V) :
  nth_error cols n = Some c ->
  dict_get (rev (positional cols)) (column_name n) = Some c.
Proof.
  intros H. apply dict_get_nodup.
  - rewrite map_rev. apply NoDup_rev, positional_nodup.
  - apply in_rev. rewrite rev_involutive. unfold positional.
    apply in_map_iff. exists (n, c). split; [reflexivity|].
    now apply (enumerate_nth cols 0).
Qed.

Lemma labels_get_none (cols : list V) (labels : list text) k :
  ~ In k (firstn (length cols) labels) ->
  dict_get (rev (combine labels cols)) k = None.
Proof.
  intros H. apply dict_get_notin. rewrite map_rev, combine_keys.
  intros Hin. apply H. now apply in_rev.
Qed.

Lemma combine_nth_error (labels : list text) :
  forall (cols : list V) i l c,
    nth_error labels i = Some l -> nth_error cols i = Some c ->
    nth_error (combine labels cols) i = Some (l, c).
Proof.
  induction labels as [|l0 labels IH]; intros [|c0 cols] [|i] l c Hl Hc;
    simpl in *; try discriminate.
  - now injection Hl as <-; injection Hc as <-.
  - now apply IH.
Qed.

Lemma dict_set_fresh d k (v : V) :
  ~ In k (map fst d) -> dict_set d k v = d ++ [(k, v)].
Proof.
  induction d as [|[k' v'] d IH]; simpl; intros H; [reflexivity|].
  destruct (text_eqb k' k) eqn:E.
  - apply text_eqb_eq in E. subst k'. exfalso. apply H. now left.
  - f_equal. apply IH. intros Hin. apply H. now right.
Qed.

Lemma fold_put_fresh kvs :
  forall d0,
    NoDup (map fst kvs) ->
    (forall k, In k (map fst kvs) -> ~ In k (map fst d0)) ->
    fold_left put kvs d0 = d0 ++ kvs.
Proof.
  induction kvs as [|[k v] kvs IH]; intros d0 Hnd Hfresh; simpl.
  - now rewrite app_nil_r.
  - inversion Hnd as [|? ? Hn Hnd']; subst. unfold put at 2. simpl.
    rewrite dict_set_fresh by (apply Hfresh; now left).
    rewrite IH; [now rewrite <- app_assoc|exact Hnd'|].
    intros k' Hin. rewrite map_app, in_app_iff. simpl.
    intros [H|[<-|[]]]; [|contradiction].
    apply (Hfresh k'); [now right|exact H].
Qed.

End TableFacts.

(** X10. A positional name gives its column, unless one of the labels that
    get bound is that very name. *)
Theorem positional_name_gives_its_column :
  forall (V : Type) (cols : list V) (labels : list text) (n : nat) (c : V),
    nth_error cols n = Some c ->
    ~ In (column_name n) (firstn (length cols) labels) ->
    dict_get (symbol_table cols labels) (column_name n) = Some c.
Proof.
  intros V cols labels n c Hc Hfree.
  rewrite symbol_table_get, (labels_get_none _ _ _ Hfree).
  now apply positional_get.
Qed.

Lemma positional_name_gives_its_column_witness :
  dict_get (symbol_table [[1; 2]; [3; 4]] [T "a"; T "b"]) (column_name 1)
  = Some [3; 4].
Proof.
  apply (@positional_name_gives_its_column
           (list nat) [[1; 2]; [3; 4]] [T "a"; T "b"] 1 [3; 4]).
  - reflexivity.
  - simpl. intros [H|[H|[]]]; discriminate H.
Defined.

(** X11. A label gives the column at its own position, unless the same label
    comes again among the labels that get bound after it; it does so even
    when it is spelled like the positional name of another column, which
    it then hides. *)
Theorem label_gives_column_at_its_position :
  forall (V : Type) (cols : list V) (labels : list text) (i : nat)
         (l : text) (c : V),
    nth_error labels i = Some l -> nth_error cols i = Some c ->
    ~ In l (skipn (S i) (firstn (length cols) labels)) ->
    dict_get (symbol_table cols labels) l = Some c.
Proof.
  intros V cols labels i l c Hl Hc Hlast.
  pose proof (combine_nth_error _ _ _ Hl Hc) as Hn.
  destruct (nth_error_split _ _ Hn) as (l1 & l2 & Hk & Hlen).
  pose proof (combine_keys labels cols) as Hkeys.
  rewrite Hk, map_app in Hkeys. simpl in Hkeys.
  rewrite <- Hkeys, skipn_app, length_map, Hlen in Hlast.
  rewrite skipn_all2 in Hlast by (rewrite length_map; lia).
  replace (S i - i) with 1 in Hlast by lia. simpl in Hlast.
  rewrite symbol_table_get, Hk, rev_app_distr. simpl.
  rewrite <- app_assoc, dict_get_app.
  rewrite dict_get_notin
    by (rewrite map_rev; intros H; apply Hlast; now apply in_rev).
  simpl. now rewrite text_eqb_refl.
Qed.

(** The label [column1] on the first of two columns: the name [column1]
    now gives the first column, not the second. *)
Lemma label_gives_column_at_its_position_witness :
  dict_get (symbol_table [[1; 2]; [3; 4]] [T "column1"; T "b"]) (T "column1")
  = Some [1; 2].
Proof.
  apply (@label_gives_column_at_its_position
           (list nat) [[1; 2]; [3; 4]] [T "column1"; T "b"] 0
           (T "column1") [1; 2]).
  - reflexivity.
  - reflexivity.
  - simpl. intros [H|[]]. discriminate H.
Defined.

(** X12. A name that is neither a positional name nor one of the labels that
    get bound is not in the table; labels beyond the number of columns
    are among those left out. *)
Theorem other_names_are_not_in_the_table :
  forall (V : Type) (cols : list V) (labels : list text) (k : text),
    ~ In k (firstn (length cols) labels) ->
    (forall n, n < length cols -> k <> column_name n) ->
    dict_get (symbol_table cols labels) k = None.
Proof.
  intros V cols labels k Hl Hp.
  rewrite symbol_table_get, (labels_get_none _ _ _ Hl).
  apply dict_get_notin. rewrite map_rev, positional_keys.
  intros Hin. apply in_rev, in_map_iff in Hin as (n & <- & Hn).
  apply in_seq in Hn. apply (Hp n); [lia|reflexivity].
Qed.

Lemma other_names_are_not_in_the_table_witness :
  dict_get (symbol_table [[1; 2]; [3; 4]] [T "a"; T "b"; T "c"]) (T "c")
  = None.
Proof.
  apply (@other_names_are_not_in_the_table
           (list nat) [[1; 2]; [3; 4]] [T "a"; T "b"; T "c"] (T "c")).
  - simpl. intros [H|[H|[]]]; discriminate H.
  - intros n Hn. simpl in Hn.
    destruct n as [|[|n]]; [discriminate|discriminate|lia].
Defined.

(** X13. With labels that are distinct and none of them a positional name,
    the table is the columns under their positional names, in order,
    followed by the columns under their labels, in order; with no label
    it is the former alone. *)
Theorem table_is_positions_then_labels :
  forall (V : Type) (cols : list V) (labels : list text),
    NoDup (firstn (length cols) labels) ->
    (forall l n, In l (firstn (length cols) labels) -> n < length cols ->
                 l <> column_name n) ->
    symbol_table cols labels = positional cols ++ combine labels cols.
Proof.
  intros V cols labels Hnd Hfresh.
  rewrite symbol_table_folds.
  rewrite (@fold_put_fresh V (positional cols) []);
    [|apply positional_nodup|intros k _ []].
  simpl. apply fold_put_fresh.
  - now rewrite combine_keys.
  - intros k Hk. rewrite combine_keys in Hk. rewrite positional_keys.
    intros Hin. apply in_map_iff in Hin as (n & <- & Hn).
    apply in_seq in Hn. apply (Hfresh _ n Hk); [lia|reflexivity].
Qed.

Lemma table_is_positions_then_labels_witness :
  symbol_table [[1; 2]; [3; 4]] [T "a"; T "b"]
  = positional [[1; 2]; [3; 4]] ++ combine [T "a"; T "b"] [[1; 2]; [3; 4]].
Proof.
  apply (@table_is_positions_then_labels
           (list nat) [[1; 2]; [3; 4]] [T "a"; T "b"]).
  - simpl. repeat constructor; simpl; intuition discriminate.
  - intros l n Hl Hn. simpl in Hl, Hn.
    destruct Hl as [<-|[<-|[]]]; destruct n as [|[|n]];
      first [discriminate|lia].
Defined.


(** ** An operation on two columns (lines 109-128) *)

Lemma identifier_split (k : text) :
  identifier k = true ->
  exists c k', k = c :: k' /\ Fragment.is_alpha c = true
               /\ forallb Fragment.is_alnum k = true
               /\ Fragment.mem k Fragment.keywords = false.
Proof.
  destruct k as [|c k]; [discriminate|]. unfold identifier. intros H.
  apply andb_prop in H as [H Hkw]. apply andb_prop in H as [Ha Hall].
  apply negb_true_iff in Hkw. now exists c, k.
Qed.

Lemma tokens_blank (n : nat) (c : ascii) (r : text) :
  Fragment.is_blank c = true ->
  Fragment.tokens (S n) (c :: r) = Fragment.tokens n r.
Proof. intros H. cbn [Fragment.tokens]. now rewrite H. Qed.

Lemma tokens_name (n : nat) (k rest : text) :
  identifier k = true ->
  match rest with c :: _ => Fragment.is_alnum c = false | [] => True end ->
  Fragment.tokens (S n) (k ++ rest)
  = Fragment.push (Fragment.TName k) (Fragment.tokens n rest).
Proof.
  intros H Hr.
  destruct (identifier_split _ H) as (c & k' & -> & Ha & Hall & Hkw).
  cbn [Fragment.tokens app]. rewrite (alpha_not_blank _ Ha), Ha.
  change (c :: k' ++ rest) with ((c :: k') ++ rest).
  now rewrite (span_app Fragment.is_alnum (c :: k') rest Hall Hr), Hkw.
Qed.

Lemma tokens_operator (n : nat) (op : Fragment.binop) (r : text) :
  Fragment.tokens (S n) (op_char op :: r)
  = Fragment.push
      match op with
      | Fragment.Add => Fragment.TPlus
      | Fragment.Sub => Fragment.TMinus
      | Fragment.Mul => Fragment.TStar
      end (Fragment.tokens n r).
Proof. now destruct op. Qed.

Lemma tokens_binary (op : Fragment.binop) (k1 k2 : text) :
  identifier k1 = true -> identifier k2 = true ->
  Fragment.tokens (S (length (binary_text op k1 k2))) (binary_text op k1 k2)
  = Some [Fragment.TName k1;
          match op with
          | Fragment.Add => Fragment.TPlus
          | Fragment.Sub => Fragment.TMinus
          | Fragment.Mul => Fragment.TStar
          end;
          Fragment.TName k2].
Proof.
  intros H1 H2. unfold binary_text.
  replace (S (length (k1 ++ ascii_of_nat 32 :: op_char op
                        :: ascii_of_nat 32 :: k2)))
    with (S (S (S (S (S (S (pred (length k1) + pred (length k2))))))));
    [|rewrite length_app; simpl;
      destruct k1; [discriminate H1|];
      destruct k2; [discriminate H2|simpl; lia]].
  generalize (pred (length k1) + pred (length k2)). intros m.
  rewrite (@tokens_name _ k1 _ H1) by reflexivity.
  rewrite tokens_blank by reflexivity.
  rewrite tokens_operator.
  rewrite tokens_blank by reflexivity.
  rewrite <- (app_nil_r k2) at 1.
  rewrite (@tokens_name _ k2 [] H2) by exact I.
  reflexivity.
Qed.

Lemma expression_of_binary (op : Fragment.binop) (k1 k2 : text) :
  identifier k1 = true -> identifier k2 = true ->
  expression_of (binary_text op k1 k2)
  = Some (Fragment.EBin op (Fragment.EName k1) (Fragment.EName k2)).
Proof.
  intros H1 H2. unfold expression_of. rewrite (@tokens_binary op k1 k2 H1 H2).
  now destruct op.
Qed.

Lemma binary_text_not_identifier (op : Fragment.binop) (k1 k2 : text) :
  identifier (binary_text op k1 k2) = false.
Proof.
  unfold identifier, binary_text.
  destruct (k1 ++ _) as [|c r] eqn:E; [reflexivity|].
  rewrite <- E, forallb_app. simpl.
  now rewrite !andb_false_r.
Qed.

Section TwoColumns.

Context {N : Type} {arith : Number N}.

Lemma usable_key_facts (items : table N) (k : text) (col : list N) :
  Forall (fun kv => identifier (fst kv) = true /\ ~ In (fst kv) own_names)
         items ->
  In (k, col) items ->
  identifier k = true /\ k <> T "a_string" /\ k <> T "a_dict" /\ k <> T "y"
  /\ k <> T "key" /\ k <> T "val" /\ k <> T "np" /\ k <> T "sys".
Proof.
  intros H Hin. apply (proj1 (Forall_forall _ _) H) in Hin as [Hi Hr].
  simpl in Hi, Hr. split; [exact Hi|].
  repeat split; intros ->; apply Hr; simpl; tauto.
Qed.

Lemma usable_keys_miss (a_dict : table N) op k1 k2 :
  usable_keys a_dict -> dict_get a_dict (binary_text op k1 k2) = None.
Proof.
  intros [_ Hk]. destruct (dict_get a_dict _) as [v|] eqn:E; [|reflexivity].
  apply dict_get_In, in_map_iff in E as ([k' v'] & Hfst & Hin).
  simpl in Hfst. subst k'.
  apply (proj1 (Forall_forall _ _) Hk) in Hin as [Hi _]. simpl in Hi.
  now rewrite binary_text_not_identifier in Hi.
Qed.

(** Python 2: the loop binds every key to the array of its column and
    touches nothing else but [key] and [val]. *)
Lemma bind2_usable (items : table N) :
  forall g l,
    NoDup (map fst items) ->
    Forall (fun kv => identifier (fst kv) = true /\ ~ In (fst kv) own_names)
           items ->
    dict_get g (T "np") = Some (VModule (T "numpy")) ->
    dict_get l (T "np") = None ->
    exists l',
      bind2 Fragment.exec items g l = Some (g, l')
      /\ (forall k col, In (k, col) items ->
                        dict_get l' k = Some (VArray col))
      /\ (forall x, ~ In x (map fst items) -> x <> T "key" -> x <> T "val" ->
                    dict_get l' x = dict_get l x).
Proof.
  induction items as [|[k v] items IH]; intros g l Hnd Hk Hnp Hl.
  - exists l. split; [reflexivity|]. split; [intros ? ? []|reflexivity].
  - inversion Hnd as [|? ? Hfresh Hnd']; subst.
    inversion Hk as [|? ? Hk1 Hks]; subst.
    destruct (@usable_key_facts ((k, v) :: items) k v Hk (or_introl eq_refl))
      as (Hi & _ & _ & _ & Hkey & Hval & Hknp & _).
    cbn [bind2]. rewrite exec_binding by exact Hi.
    rewrite (@eval_binding_expr_array N arith _ g v);
      [|now rewrite !dict_get_set_other by discriminate
       |exact Hnp|apply dict_get_set_same].
    destruct (IH g (dict_set (dict_set (dict_set l (T "key") (VStr k))
                                       (T "val") (VList v)) k (VArray v))
                 Hnd' Hks Hnp) as (l' & Hrun & Hbound & Hother).
    { now rewrite !dict_get_set_other by (discriminate || congruence). }
    exists l'. split; [exact Hrun|]. split.
    + intros k0 col [[= <- <-]|Hin]; [|now apply Hbound].
      rewrite Hother by (try assumption; congruence).
      apply dict_get_set_same.
    + intros x Hx Hx1 Hx2. simpl in Hx.
      rewrite Hother by tauto.
      rewrite !dict_get_set_other by (congruence || tauto). reflexivity.
Qed.

Lemma refresh_other a_string (a_dict : table N) d kv (x : text) :
  x <> T "a_string" -> x <> T "a_dict" -> x <> T "y" -> x <> T "key" ->
  x <> T "val" ->
  dict_get (refresh a_string a_dict d kv) x = dict_get d x.
Proof.
  intros H1 H2 H3 H4 H5. unfold refresh.
  destruct kv as [[key val]|];
    repeat first [rewrite dict_get_set_other by congruence
                 |rewrite dict_get_del_other by congruence];
    reflexivity.
Qed.

Lemma refresh_val a_string (a_dict : table N) d k v :
  dict_get (refresh a_string a_dict d (Some (k, v))) (T "val")
  = Some (VList v).
Proof. unfold refresh. apply dict_get_set_same. Qed.

(** Python 3 before 3.13: the same, in the frame's dictionary. *)
Lemma bind3_usable py a_string a_dict (items : table N) :
  snapshot_locals py = false ->
  forall g d kv,
    NoDup (map fst items) ->
    Forall (fun kv => identifier (fst kv) = true /\ ~ In (fst kv) own_names)
           items ->
    dict_get g (T "np") = Some (VModule (T "numpy")) ->
    dict_get d (T "np") = None ->
    exists d' kv',
      bind3 py Fragment.exec a_string a_dict items g d kv = Some (g, d', kv')
      /\ (forall k col, In (k, col) items ->
                        dict_get d' k = Some (VArray col))
      /\ (forall x, ~ In x (map fst items) -> ~ In x own_names ->
                    dict_get d' x = dict_get d x)
      /\ dict_get d' (T "np") = None.
Proof.
  intros Hsnap.
  induction items as [|[k v] items IH]; intros g d kv Hnd Hk Hnp Hd.
  - exists d, kv. split; [reflexivity|].
    split; [intros ? ? []|]. now split.
  - inversion Hnd as [|? ? Hfresh Hnd']; subst.
    inversion Hk as [|? ? Hk1 Hks]; subst.
    destruct (@usable_key_facts ((k, v) :: items) k v Hk (or_introl eq_refl))
      as (Hi & Ha1 & Ha2 & Hy & Hkey & Hval & Hknp & _).
    cbn [bind3]. rewrite exec_binding by exact Hi.
    unfold locals. rewrite Hsnap.
    rewrite (@eval_binding_expr_array N arith _ g v);
      [|now rewrite refresh_other by discriminate
       |exact Hnp|apply refresh_val].
    destruct (IH g (dict_set (refresh a_string a_dict d (Some (k, v)))
                             k (VArray v)) (Some (k, v)) Hnd' Hks Hnp)
      as (d' & kv' & Hrun & Hbound & Hother & Hnp').
    { rewrite dict_get_set_other by congruence.
      now rewrite refresh_other by discriminate. }
    exists d', kv'. split; [exact Hrun|]. split; [|split; [|exact Hnp']].
    + intros k0 col [[= <- <-]|Hin]; [|now apply Hbound].
      rewrite Hother; [apply dict_get_set_same|exact Hfresh|].
      now destruct Hk1.
    + intros x Hx Hown. simpl in Hx.
      rewrite Hother by tauto.
      rewrite dict_get_set_other by tauto.
      apply refresh_other; intros ->; apply Hown; simpl; tauto.
Qed.

End TwoColumns.

(** X15. On Python 2, for a table of usable keys in a module where [np] is
    numpy and [sys] is sys, the expression [k1 op k2] ([op] one of
    [+ - *]) over two keys whose columns have one length resolves to the
    array of the elementwise results, and the module's names are left as
    they were. *)
Theorem two_columns_on_python2 :
  forall (N : Type) (arith : Number N) (py : version)
         (op : Fragment.binop) (a_dict : table N) (g : ns N)
         (k1 k2 : text) (c1 c2 : list N),
    exec_statement py = true ->
    usable_keys a_dict ->
    In (k1, c1) a_dict -> In (k2, c2) a_dict -> length c1 = length c2 ->
    dict_get g (T "np") = Some (VModule (T "numpy")) ->
    dict_get g (T "sys") = Some (VModule (T "sys")) ->
    gety py Fragment.exec (binary_text op k1 k2) a_dict g
    = (Returns (VArray (Fragment.zip_with (Fragment.op2 op) c1 c2)), g).
Proof.
  intros N arith py op a_dict g k1 k2 c1 c2 Hpy Hu H1 H2 Hlen Hnp Hsys.
  pose proof Hu as [Hnd Hk].
  destruct (usable_key_facts _ _ Hk H1) as (Hi1 & _).
  destruct (usable_key_facts _ _ Hk H2) as (Hi2 & _).
  unfold gety. rewrite Hpy. unfold gety2.
  rewrite (usable_keys_miss op k1 k2 Hu).
  destruct (@bind2_usable N arith a_dict g
              [(T "a_string", VStr (binary_text op k1 k2));
               (T "a_dict", VDict a_dict)] Hnd Hk Hnp eq_refl)
    as (l' & -> & Hbound & Hother).
  assert (Hfree : forall x, In x own_names -> ~ In x (map fst a_dict)).
  { intros x Hx Hin. apply in_map_iff in Hin as ([k c] & <- & Hin).
    apply (proj1 (Forall_forall _ _) Hk) in Hin as [_ Hr]. now apply Hr. }
  unfold load_name.
  rewrite (Hother (T "sys")), (Hother (T "a_string"));
    try discriminate; try (apply Hfree; simpl; tauto).
  simpl dict_get at 1. rewrite Hsys. cbn [version_test].
  rewrite text_eqb_refl, (python2_is_before_3_6 _ Hpy).
  simpl dict_get at 1. cbv beta iota.
  rewrite exec_assignment, (@expression_of_binary op k1 k2 Hi1 Hi2).
  cbn [Fragment.eval]. unfold Fragment.lookup.
  rewrite (Hbound _ _ H1), (Hbound _ _ H2). cbn [Fragment.binary].
  rewrite Hlen, Nat.eqb_refl. now rewrite dict_get_set_same.
Qed.

Lemma two_columns_on_python2_witness :
  gety py27 Fragment.exec (binary_text Fragment.Mul (T "b") (T "a"))
       (symbol_table [[1; 2]; [10; 20]]%Q [T "a"; T "b"]) module_globals
  = (Returns (VArray (Fragment.zip_with (Fragment.op2 Fragment.Mul)
                                        [10; 20]%Q [1; 2]%Q)),
     module_globals).
Proof.
  apply (@two_columns_on_python2 Q Number_Q py27 Fragment.Mul
           (symbol_table [[1; 2]; [10; 20]]%Q [T "a"; T "b"]) module_globals
           (T "b") (T "a") [10; 20]%Q [1; 2]%Q).
  - reflexivity.
  - split.
    + simpl. repeat constructor; simpl; intuition discriminate.
    + repeat constructor; try reflexivity; simpl; intuition discriminate.
  - simpl. tauto.
  - simpl. tauto.
  - reflexivity.
  - reflexivity.
  - reflexivity.
Defined.

(** X16. On Python 3.6 to 3.12 the same expression is evaluated to the same
    array, when the module binds neither key itself, but the array is
    left under the module's name [y] and the call raises
    [UnboundLocalError]. *)
Theorem two_columns_on_python3 :
  forall (N : Type) (arith : Number N) (py : version)
         (op : Fragment.binop) (a_dict : table N) (g : ns N)
         (k1 k2 : text) (c1 c2 : list N),
    exec_statement py = false -> before_3_6 py = false ->
    snapshot_locals py = false ->
    usable_keys a_dict ->
    In (k1, c1) a_dict -> In (k2, c2) a_dict -> length c1 = length c2 ->
    dict_get g (T "np") = Some (VModule (T "numpy")) ->
    dict_get g (T "sys") = Some (VModule (T "sys")) ->
    dict_get g k1 = None -> dict_get g k2 = None ->
    gety py Fragment.exec (binary_text op k1 k2) a_dict g
    = (Raises (UnboundLocalError (T "y")),
       dict_set g (T "y")
                (VArray (Fragment.zip_with (Fragment.op2 op) c1 c2))).
Proof.
  intros N arith py op a_dict g k1 k2 c1 c2 Hpy H36 Hsnap Hu H1 H2 Hlen
         Hnp Hsys Hg1 Hg2.
  pose proof Hu as [Hnd Hk].
  destruct (usable_key_facts _ _ Hk H1)
    as (Hi1 & A1 & A2 & A3 & A4 & A5 & _).
  destruct (usable_key_facts _ _ Hk H2)
    as (Hi2 & B1 & B2 & B3 & B4 & B5 & _).
  unfold gety. rewrite Hpy. unfold gety3.
  rewrite (usable_keys_miss op k1 k2 Hu).
  destruct (@bind3_usable N arith py (binary_text op k1 k2) a_dict a_dict
              Hsnap g [] None Hnd Hk Hnp eq_refl)
    as (d' & kv' & -> & Hbound & _).
  rewrite Hsys. cbn [version_test]. rewrite text_eqb_refl, H36.
  rewrite exec_assignment, (@expression_of_binary op k1 k2 Hi1 Hi2).
  cbn [Fragment.eval]. unfold Fragment.lookup, locals.
  rewrite Hsnap, Hg1, Hg2, !refresh_other by assumption.
  rewrite (Hbound _ _ H1), (Hbound _ _ H2). cbn [Fragment.binary].
  now rewrite Hlen, Nat.eqb_refl.
Qed.

Lemma two_columns_on_python3_witness :
  gety py311 Fragment.exec (binary_text Fragment.Sub (T "column1") (T "column0"))
       scenario_C module_globals
  = (Raises (UnboundLocalError (T "y")),
     dict_set module_globals (T "y")
              (VArray (Fragment.zip_with (Fragment.op2 Fragment.Sub)
                                         [4; 5; 6]%Q [1; 2; 3]%Q))).
Proof.
  apply (@two_columns_on_python3 Q Number_Q py311 Fragment.Sub
           scenario_C module_globals (T "column1") (T "column0")
           [4; 5; 6]%Q [1; 2; 3]%Q).
  - reflexivity.
  - reflexivity.
  - reflexivity.
  - split.
    + simpl. repeat constructor; simpl; intuition discriminate.
    + repeat constructor; try reflexivity; simpl; intuition discriminate.
  - simpl. tauto.
  - simpl. tauto.
  - reflexivity.
  - reflexivity.
  - reflexivity.
  - reflexivity.
  - reflexivity.
Defined.

(** ** The module's names *)

Lemma fragment_exec_frame {N : Type} {arith : Number N} (code : text)
      (g l : ns N) :
  match Fragment.exec code g l with
  | Done g' _ | Raised _ g' _ => g' = g
  | Beyond => True
  end.
Proof.
  unfold Fragment.exec. destruct (Fragment.lex code) as [ts|]; [|exact I].
  destruct (Fragment.parse ts) as [[x e]|].
  - destruct (Fragment.eval l g e); first [reflexivity | exact I].
  - destruct (Fragment.ill_formed ts); first [reflexivity | exact I].
Qed.

Lemma bind2_frame {N : Type} {arith : Number N} (items : table N) :
  forall g l g' l',
    bind2 Fragment.exec items g l = Some (g', l') -> g' = g.
Proof.
  induction items as [|[k v] items IH]; intros g l g' l'; cbn [bind2].
  - now intros [= <- _].
  - match goal with
    | |- context [Fragment.exec ?c ?a ?b] =>
        pose proof (fragment_exec_frame c a b) as Hf;
          destruct (Fragment.exec c a b) as [g1 l1|e g1 l1|]
    end; try discriminate; subst g1; apply IH.
Qed.

Lemma bind3_any_frame {N : Type} {arith : Number N} py a_string a_dict
      (items : table N) :
  forall g d kv g' d' kv',
    bind3 py Fragment.exec a_string a_dict items g d kv = Some (g', d', kv') ->
    g' = g.
Proof.
  induction items as [|[k v] items IH]; intros g d kv g' d' kv'; cbn [bind3].
  - now intros [= <- _ _].
  - match goal with
    | |- context [Fragment.exec ?c ?a ?b] =>
        pose proof (fragment_exec_frame c a b) as Hf;
          destruct (Fragment.exec c a b) as [g1 l1|e g1 l1|]
    end; try discriminate; subst g1; apply IH.
Qed.

(** X17. Whatever the interpreter, the expression and the table, a resolution
    that the model follows leaves every name of the module as it was, the
    name [y] apart. *)
Theorem resolution_changes_no_name_but_y :
  forall (N : Type) (arith : Number N) (py : version) (a_string : text)
         (a_dict : table N) (g : ns N) (x : text),
    x <> T "y" ->
    fst (gety py Fragment.exec a_string a_dict g) <> Unmodelled ->
    dict_get (snd (gety py Fragment.exec a_string a_dict g)) x
    = dict_get g x.
Proof.
  intros N arith py a_string a_dict g x Hx.
  unfold gety. destruct (exec_statement py).
  - unfold gety2. destruct (dict_get a_dict a_string); [reflexivity|].
    destruct (bind2 Fragment.exec a_dict g _) as [[g1 l1]|] eqn:Eb;
      [|now intros []].
    apply bind2_frame in Eb. subst g1.
    destruct (version_test py _) as [[[|]|e]|];
      try reflexivity; try (now intros []).
    destruct (dict_get l1 (T "a_string")) as [[]|];
      try reflexivity; try (now intros []).
    match goal with
    | |- context [Fragment.exec ?c ?a ?b] =>
        pose proof (fragment_exec_frame c a b) as Hf;
          destruct (Fragment.exec c a b) as [g2 l2|e g2 l2|]
    end; try (now intros []); subst g2.
    + now destruct (dict_get l2 (T "y")).
    + reflexivity.
  - unfold gety3. destruct (dict_get a_dict a_string); [reflexivity|].
    destruct (bind3 py Fragment.exec a_string a_dict a_dict g [] None)
      as [[[g1 d1] kv1]|] eqn:Eb; [|now intros []].
    apply bind3_any_frame in Eb. subst g1.
    destruct (version_test py _) as [[[|]|e]|];
      try reflexivity; try (now intros []).
    + match goal with
      | |- context [Fragment.exec ?c ?a ?b] =>
          pose proof (fragment_exec_frame c a b) as Hf;
            destruct (Fragment.exec c a b) as [g2 l2|e g2 l2|]
      end; try (now intros []); now subst g2.
    + rewrite exec_assignment.
      destruct (expression_of a_string) as [e|].
      * destruct (Fragment.eval g _ e); try (now intros []); intros _.
        -- cbn [snd]. now rewrite dict_get_set_other by congruence.
        -- reflexivity.
      * destruct (Fragment.rejected (assignment a_string));
          [reflexivity|now intros []].
Qed.

Lemma resolution_changes_no_name_but_y_witness :
  dict_get (snd (gety py311 Fragment.exec (T "column1 - column0") scenario_C
                      module_globals)) (T "np")
  = dict_get (@module_globals Q) (T "np").
Proof.
  apply (@resolution_changes_no_name_but_y Q Number_Q py311
           (T "column1 - column0") scenario_C module_globals (T "np")).
  - discriminate.
  - vm_compute. discriminate.
Defined.

(** ** The plots *)

Lemma gety_of_key {N : Type}
      (py : version) (exec : text -> ns N -> ns N -> exec_result N)
      (a_string : text) (a_dict : table N) (g : ns N) (col : list N) :
  dict_get a_dict a_string = Some col ->
  gety py exec a_string a_dict g = (Returns (VList col), g).
Proof.
  intros H. unfold gety, gety2, gety3. rewrite H.
  now destruct (exec_statement py).
Qed.

Section PlotFacts.

Context {N : Type} {arith : Number N}.
Variable py : version.
Variable data : table N.

Lemma plot_keys_named (tx : list N) (keys : list text)
      (kcols : list (list N)) :
  Forall2 (fun key col => dict_get data key = Some col
                          /\ length col = length tx) keys kcols ->
  forall g plots,
    dict_get g (T "t") = Some (VList tx) ->
    plot_keys py keys data g plots
    = Plotted (plots ++ map (fun kc => Plot (VList tx) (VList (snd kc)) (fst kc))
                            (combine keys kcols)).
Proof.
  induction 1 as [|key col keys kcols [Hkey Hlen] _ IH]; intros g plots Ht.
  - simpl. now rewrite app_nil_r.
  - cbn [plot_keys].
    rewrite (@gety_of_key N py Fragment.exec key data _ col Hkey).
    rewrite !dict_get_set_other by discriminate. rewrite Ht.
    unfold plottable. cbn [sequence]. rewrite Hlen, Nat.eqb_refl.
    rewrite IH by (now rewrite !dict_get_set_other by discriminate).
    cbn [combine map fst snd]. now rewrite <- app_assoc.
Qed.

End PlotFacts.


